(** * SpecUtils CNF codec: a shallow embedding of [src/SpecFile_cnf.cpp]

    The development follows the source file top to bottom:

    - machine integers ([uint32_t], [size_t]) with their wrap-around, and
      the two IEEE-754 formats ([float], [double]) on top of the Standard
      Library's [SpecFloat];
    - [std::istream] as a byte list with a get position, the two state bits
      the decoder can observe, and a log of the extractions performed;
    - the two lambdas [findCnfBlock] and [readCnfFloat];
    - [SpecFile::load_from_cnf] and [SpecFile::write_cnf] in a small
      state-and-exception monad over the pair (stream, host object).

    Code that the translation unit only calls (boost::posix_time, the
    calibration checker, [trim], [reset], [sum_measurements], ...) is taken
    as an interface; see [PosixTime] and [Collaborators].  [Sample] gives
    one implementation of both, used to run the codec on concrete files.

    The recursive mutex both entry points take is not modelled: every
    statement below is about a single call running alone. *)

From Stdlib Require Import ZArith List Bool String Lia SpecFloat.
From Stdlib.Strings Require Import Byte.
From stdpp Require Import base list gmap strings.

Open Scope Z_scope.

(** ** Machine integers *)

Module Int.

(** Reduction of a mathematical integer to an unsigned [w]-bit one. *)
Definition wrap (w : Z) (x : Z) : Z := x mod 2 ^ w.

Definition u32 : Z -> Z := wrap 32.
(** [size_t] on the LP64 targets the library is built for. *)
Definition usize : Z -> Z := wrap 64.

Definition UINT32_MAX : Z := 0xFFFFFFFF.

Definition byte_to_Z (b : byte) : Z := Z.of_N (Byte.to_N b).

(** [memcpy] of a byte buffer onto an unsigned integer on a
    little-endian host. *)
Fixpoint le_to_Z (bs : list byte) : Z :=
  match bs with
  | [] => 0
  | b :: rest => byte_to_Z b + 256 * le_to_Z rest
  end.

(** Split a byte list into 4-byte little-endian words; a trailing group
    shorter than four bytes is dropped. *)
Fixpoint le_words (fuel : nat) (bs : list byte) : list Z :=
  match fuel with
  | O => []
  | S fuel' =>
      match bs with
      | b0 :: b1 :: b2 :: b3 :: rest =>
          le_to_Z [b0; b1; b2; b3] :: le_words fuel' rest
      | _ => []
      end
  end.

End Int.

(** ** Floating point: binary32 and binary64 *)

Module F32.
Definition prec : Z := 24.
Definition emax : Z := 128.
Definition t := spec_float.

Definition zero : t := S754_zero false.
Definition mul : t -> t -> t := SFmul prec emax.

(** The value a 32-bit pattern denotes (sign, 8 exponent bits,
    23 fraction bits).  NaN payloads are not kept by [spec_float]. *)
Definition of_bits (w : Z) : t :=
  let s := Z.testbit w 31 in
  let e := (w / 2 ^ 23) mod 2 ^ 8 in
  let m := w mod 2 ^ 23 in
  if e =? 0 then
    match m with
    | Zpos p => S754_finite s p (-149)
    | _ => S754_zero s
    end
  else if e =? 255 then
    match m with
    | Z0 => S754_infinity s
    | _ => S754_nan
    end
  else
    match m + 2 ^ 23 with
    | Zpos p => S754_finite s p (e - 150)
    | _ => S754_nan
    end.

(** The literal [0.25f]. *)
Definition quarter : t := S754_finite false 8388608 (-25).

(** [static_cast<float>(n)] for an integer [n]. *)
Definition of_Z (n : Z) : t := binary_normalize prec emax n 0 false.

(** [v == 0.0f]. *)
Definition is_zero (v : t) : bool :=
  match v with
  | S754_zero _ => true
  | _ => false
  end.
End F32.

Module F64.
Definition prec : Z := 53.
Definition emax : Z := 1024.
Definition t := spec_float.

Definition zero : t := S754_zero false.
Definition add : t -> t -> t := SFadd prec emax.
Definition sub : t -> t -> t := SFsub prec emax.
Definition mul : t -> t -> t := SFmul prec emax.
Definition div : t -> t -> t := SFdiv prec emax.

(** Conversion of an integer to [double] (exact below [2^53]). *)
Definition of_Z (n : Z) : t := binary_normalize prec emax n 0 false.

(** Widening [float] to [double] is exact. *)
Definition of_f32 (v : F32.t) : t :=
  match v with
  | S754_finite s m e => binary_round prec emax s m e
  | _ => v
  end.

(** [static_cast<float>(d)]: round to nearest, ties to even. *)
Definition to_f32 (d : t) : F32.t :=
  match d with
  | S754_finite s m e => binary_round F32.prec F32.emax s m e
  | _ => d
  end.

(** [static_cast<int64_t>(d)]: truncation toward zero.  Outside the
    [int64_t] range (and for NaN) ISO C++ leaves the conversion
    undefined; the value x86-64's [cvttsd2si] delivers is used. *)
Definition to_int64 (d : t) : Z :=
  match d with
  | S754_finite s m e =>
      let a := match e with
               | Z0 => Zpos m
               | Zpos p => Zpos m * 2 ^ e
               | Zneg p => Zpos m / 2 ^ (Zpos p)
               end in
      let v := if s then - a else a in
      if (- 2 ^ 63 <=? v) && (v <? 2 ^ 63) then v else - 2 ^ 63
  | S754_zero _ => 0
  | _ => - 2 ^ 63
  end.

(** The literals [429.4967296], [1.0E7], [24.0], [60.0] and [1.0E3]. *)
Definition c_429_4967296 : t := S754_finite false 7555786372591432 (-44).
Definition c_1e7 : t := of_Z 10000000.
Definition c_24 : t := of_Z 24.
Definition c_60 : t := of_Z 60.
Definition c_1e3 : t := of_Z 1000.
End F64.

(** ** Input streams *)

(** [std::istream] restricted to what the decoder can observe: the
    underlying bytes, the get position, [failbit] and [eofbit].  [reads]
    is ghost state: every extraction attempted on a good stream is
    recorded, in order, as (position, number of bytes requested). *)
Record istream : Type := mkIstream {
  content : list byte;
  gpos : Z;
  failbit : bool;
  eofbit : bool;
  reads : list (Z * Z)
}.

Definition stream_length (s : istream) : Z := Z.of_nat (length (content s)).

Definition istream_good (s : istream) : bool :=
  negb (failbit s) && negb (eofbit s).

(** [input.tellg()]: on a stream that is not good the sentry sets
    [failbit] and the result is [pos_type(-1)]. *)
Definition istream_tellg (s : istream) : Z * istream :=
  if istream_good s then (gpos s, s)
  else (-1, mkIstream (content s) (gpos s) true (eofbit s) (reads s)).

(** [input.clear()]. *)
Definition istream_clear (s : istream) : istream :=
  mkIstream (content s) (gpos s) false false (reads s).

(** [input.seekg(p, ios::beg)]: clears [eofbit]; does nothing more on a
    failed stream; a target outside the sequence sets [failbit]. *)
Definition istream_seekg (p : Z) (s : istream) : istream :=
  if failbit s then mkIstream (content s) (gpos s) true false (reads s)
  else if (0 <=? p) && (p <=? stream_length s)
       then mkIstream (content s) p false false (reads s)
       else mkIstream (content s) (gpos s) true false (reads s).

(** [input.seekg(0, ios::end)]. *)
Definition istream_seekg_end (s : istream) : istream :=
  if failbit s then mkIstream (content s) (gpos s) true false (reads s)
  else mkIstream (content s) (stream_length s) false false (reads s).

(** [input.read(buf, n)]: on a stream that is not good only [failbit] is
    set.  Otherwise up to [n] bytes are extracted; running out of bytes
    sets [eofbit] and [failbit].  Returns the bytes extracted. *)
Definition istream_read (n : Z) (s : istream) : list byte * istream :=
  if istream_good s then
    let got := take (Z.to_nat n) (drop (Z.to_nat (gpos s)) (content s)) in
    let short := Z.of_nat (length got) <? n in
    (got,
     mkIstream (content s) (gpos s + Z.of_nat (length got))
               (short) (short) (reads s ++ [(gpos s, n)]))
  else ([], mkIstream (content s) (gpos s) true (eofbit s) (reads s)).

(** [pos_type(p)] for a [size_t] value [p]: stream offsets are signed. *)
Definition to_streamoff (p : Z) : Z :=
  if p <? 2 ^ 63 then p else p - 2 ^ 64.

(** ** Data model *)

Inductive EnergyCalType : Type :=
| Polynomial
| FullRangeFraction
| LowerChannelEdge
| UnspecifiedUsingDefaultPolynomial
| InvalidEquationType.

Inductive DetectorType : Type :=
| Unknown
| Falcon5000.

(** The part of [boost::posix_time] the codec calls.  An addition that
    raises ([None]) is what the decoder's inner [catch(...)] is for. *)
Class PosixTime : Type := {
  ptime : Type;
  (** [ptime(date(1858,Nov,17), time_duration(0,0,0))] *)
  ptime_1858_Nov_17 : ptime;
  (** [ptime()] *)
  not_a_date_time : ptime;
  (** [t += hours(n)], [t += seconds(n)], [t += milliseconds(n)] *)
  add_hours : ptime -> Z -> option ptime;
  add_seconds : ptime -> Z -> option ptime;
  add_milliseconds : ptime -> Z -> option ptime;
  is_special : ptime -> bool;
  fractional_seconds : ptime -> Z;
  ticks_per_second : Z
}.

Record DetectorAnalysis : Type := mkDetectorAnalysis {
  ana_remarks_ : list string;
  results_ : list string
}.

Section Codec.

Context {PT : PosixTime}.

(** The members of [Measurement] this translation unit touches. *)
Record Measurement : Type := mkMeasurement {
  title_ : string;
  meas_remarks_ : list string;
  start_time_ : ptime;
  real_time_ : F32.t;
  live_time_ : F32.t;
  calibration_coeffs_ : list F32.t;
  energy_calibration_model_ : EnergyCalType;
  deviation_pairs_ : list (F32.t * F32.t);
  detector_name_ : string;
  gamma_counts_ : option (list F32.t);
  gamma_count_sum_ : F64.t;
  neutron_counts_sum_ : F64.t;
  contained_neutron_ : bool
}.

(** Modelled from the spec: the constructor [Measurement()] is declared
    in SpecUtils/SpecFile.h, outside this translation unit.  A fresh record
    is empty, its start time is the unset sentinel and its calibration
    model is [Invalid]. *)
Definition new_Measurement : Measurement :=
  {| title_ := ""; meas_remarks_ := []; start_time_ := not_a_date_time;
     real_time_ := F32.zero; live_time_ := F32.zero;
     calibration_coeffs_ := [];
     energy_calibration_model_ := InvalidEquationType;
     deviation_pairs_ := []; detector_name_ := "";
     gamma_counts_ := None; gamma_count_sum_ := F64.zero;
     neutron_counts_sum_ := F64.zero; contained_neutron_ := false |}.

Definition with_title (v : string) (m : Measurement) : Measurement :=
  mkMeasurement v (meas_remarks_ m) (start_time_ m) (real_time_ m)
    (live_time_ m) (calibration_coeffs_ m) (energy_calibration_model_ m)
    (deviation_pairs_ m) (detector_name_ m) (gamma_counts_ m)
    (gamma_count_sum_ m) (neutron_counts_sum_ m) (contained_neutron_ m).

Definition with_meas_remarks (v : list string) (m : Measurement) : Measurement :=
  mkMeasurement (title_ m) v (start_time_ m) (real_time_ m)
    (live_time_ m) (calibration_coeffs_ m) (energy_calibration_model_ m)
    (deviation_pairs_ m) (detector_name_ m) (gamma_counts_ m)
    (gamma_count_sum_ m) (neutron_counts_sum_ m) (contained_neutron_ m).

Definition with_start_time (v : ptime) (m : Measurement) : Measurement :=
  mkMeasurement (title_ m) (meas_remarks_ m) v (real_time_ m)
    (live_time_ m) (calibration_coeffs_ m) (energy_calibration_model_ m)
    (deviation_pairs_ m) (detector_name_ m) (gamma_counts_ m)
    (gamma_count_sum_ m) (neutron_counts_sum_ m) (contained_neutron_ m).

Definition with_real_time (v : F32.t) (m : Measurement) : Measurement :=
  mkMeasurement (title_ m) (meas_remarks_ m) (start_time_ m) v
    (live_time_ m) (calibration_coeffs_ m) (energy_calibration_model_ m)
    (deviation_pairs_ m) (detector_name_ m) (gamma_counts_ m)
    (gamma_count_sum_ m) (neutron_counts_sum_ m) (contained_neutron_ m).

Definition with_live_time (v : F32.t) (m : Measurement) : Measurement :=
  mkMeasurement (title_ m) (meas_remarks_ m) (start_time_ m) (real_time_ m)
    v (calibration_coeffs_ m) (energy_calibration_model_ m)
    (deviation_pairs_ m) (detector_name_ m) (gamma_counts_ m)
    (gamma_count_sum_ m) (neutron_counts_sum_ m) (contained_neutron_ m).

Definition with_calibration (c : list F32.t) (k : EnergyCalType)
    (m : Measurement) : Measurement :=
  mkMeasurement (title_ m) (meas_remarks_ m) (start_time_ m) (real_time_ m)
    (live_time_ m) c k
    (deviation_pairs_ m) (detector_name_ m) (gamma_counts_ m)
    (gamma_count_sum_ m) (neutron_counts_sum_ m) (contained_neutron_ m).

Definition with_detector_name (v : string) (m : Measurement) : Measurement :=
  mkMeasurement (title_ m) (meas_remarks_ m) (start_time_ m) (real_time_ m)
    (live_time_ m) (calibration_coeffs_ m) (energy_calibration_model_ m)
    (deviation_pairs_ m) v (gamma_counts_ m)
    (gamma_count_sum_ m) (neutron_counts_sum_ m) (contained_neutron_ m).

Definition with_gamma (c : option (list F32.t)) (sum : F64.t)
    (m : Measurement) : Measurement :=
  mkMeasurement (title_ m) (meas_remarks_ m) (start_time_ m) (real_time_ m)
    (live_time_ m) (calibration_coeffs_ m) (energy_calibration_model_ m)
    (deviation_pairs_ m) (detector_name_ m) c
    sum (neutron_counts_sum_ m) (contained_neutron_ m).

(** The members of the host object [SpecFile] this translation unit
    touches. *)
Record SpecFile : Type := mkSpecFile {
  filename_ : string;
  remarks_ : list string;
  measurements_ : list Measurement;
  detector_type_ : DetectorType;
  instrument_type_ : string;
  manufacturer_ : string;
  instrument_model_ : string;
  sample_numbers_ : gset Z;
  detector_numbers_ : list Z;
  detectors_analysis_ : option DetectorAnalysis
}.

Definition empty_SpecFile : SpecFile :=
  {| filename_ := ""; remarks_ := []; measurements_ := [];
     detector_type_ := Unknown; instrument_type_ := "";
     manufacturer_ := ""; instrument_model_ := "";
     sample_numbers_ := ∅; detector_numbers_ := [];
     detectors_analysis_ := None |}.

(** [filename_ = filename] *)
Definition set_filename (v : string) (f : SpecFile) : SpecFile :=
  mkSpecFile v (remarks_ f) (measurements_ f)
    (detector_type_ f) (instrument_type_ f) (manufacturer_ f)
    (instrument_model_ f) (sample_numbers_ f) (detector_numbers_ f)
    (detectors_analysis_ f).

Definition push_remark (r : string) (f : SpecFile) : SpecFile :=
  mkSpecFile (filename_ f) (remarks_ f ++ [r]) (measurements_ f)
    (detector_type_ f) (instrument_type_ f) (manufacturer_ f)
    (instrument_model_ f) (sample_numbers_ f) (detector_numbers_ f)
    (detectors_analysis_ f).

Definition push_measurement (m : Measurement) (f : SpecFile) : SpecFile :=
  mkSpecFile (filename_ f) (remarks_ f) (measurements_ f ++ [m])
    (detector_type_ f) (instrument_type_ f) (manufacturer_ f)
    (instrument_model_ f) (sample_numbers_ f) (detector_numbers_ f)
    (detectors_analysis_ f).

Definition set_instrument (d : DetectorType) (ty manu model : string)
    (f : SpecFile) : SpecFile :=
  mkSpecFile (filename_ f) (remarks_ f) (measurements_ f)
    d ty manu model (sample_numbers_ f) (detector_numbers_ f)
    (detectors_analysis_ f).

End Codec.

(** ** Exceptions, undefined behaviour and the monad *)

(** Every exception the code raises or lets a collaborator raise derives
    from [std::exception]; [what] is its message. *)
Inductive exn : Type :=
| runtime_error (what : string).

(** States the C++ semantics gives no meaning to, plus the one artefact
    of the model: [FuelExhausted], which [findCnfBlock_clean] shows is
    never reached on a stream of fewer than [2^63] bytes. *)
Inductive stuck : Type :=
| IndeterminateValue
| OutOfBounds (len idx : Z)
| FuelExhausted.

Inductive Res (A : Type) : Type :=
| Val (a : A)
| Exn (e : exn)
| Stuck (u : stuck).

Arguments Val {A} a.
Arguments Exn {A} e.
Arguments Stuck {A} u.

Definition M (S A : Type) : Type := S -> Res A * S.

Definition ret {S A} (a : A) : M S A := fun s => (Val a, s).

Definition bind {S A B} (c : M S A) (k : A -> M S B) : M S B :=
  fun s =>
    match c s with
    | (Val a, s') => k a s'
    | (Exn e, s') => (Exn e, s')
    | (Stuck u, s') => (Stuck u, s')
    end.

Definition throw {S A} (e : exn) : M S A := fun s => (Exn e, s).
Definition abort {S A} (u : stuck) : M S A := fun s => (Stuck u, s).

(** [try { c } catch( std::exception & ) { h }] *)
Definition try_catch {S A} (c : M S A) (h : exn -> M S A) : M S A :=
  fun s =>
    match c s with
    | (Exn e, s') => h e s'
    | r => r
    end.

Definition get {S} : M S S := fun s => (Val s, s).
Definition modify {S} (f : S -> S) : M S unit := fun s => (Val tt, f s).

Notation "'do' x <- c ; k" := (bind c (fun x => k))
  (at level 10, x name, c at level 100, k at level 200,
   format "'[v' 'do'  x  <-  c ; '/' k ']'").
Notation "'do' ' pat <- c ; k" :=
  (bind c (fun x => match x with pat => k end))
  (at level 10, pat pattern, c at level 100, k at level 200,
   format "'[v' 'do'  ' pat  <-  c ; '/' k ']'").
Notation "'run' c ; k" := (bind c (fun _ => k))
  (at level 10, c at level 100, k at level 200,
   format "'[v' 'run'  c ; '/' k ']'").

(** Functions of the library that this translation unit calls and that
    are defined elsewhere.  The two called inside [write_cnf]'s [try]
    block may raise. *)
Class Collaborators {PT : PosixTime} : Type := {
  (** [SpecUtils::trim] *)
  trim : string -> string;
  (** [SpecUtils::calibration_is_valid(type, coeffs, devpairs, nchannel)] *)
  calibration_is_valid :
    EnergyCalType -> list F32.t -> list (F32.t * F32.t) -> Z -> bool;
  (** [SpecFile::reset()] *)
  reset : SpecFile -> SpecFile;
  (** [SpecFile::cleanup_after_load()] *)
  cleanup_after_load : SpecFile -> SpecFile;
  (** [SpecFile::sum_measurements(sample_nums, detectors)]; [inr None] is
      a null [shared_ptr] *)
  sum_measurements :
    SpecFile -> gset Z -> list bool -> exn + option Measurement;
  (** [SpecUtils::fullrangefraction_coef_to_polynomial(coeffs, nchannel)] *)
  fullrangefraction_coef_to_polynomial :
    list F32.t -> Z -> exn + list F32.t;
  (** [DetectorAnalysis::is_empty()] *)
  analysis_is_empty : DetectorAnalysis -> bool
}.

Section Decoder.

Context {PT : PosixTime} {CO : Collaborators}.

(** State of a decode: the stream passed by reference and [*this]. *)
Record DecSt : Type := mkDecSt {
  input : istream;
  self : SpecFile
}.

(** A decoder state whose stream has neither state bit set. *)
Definition clean (c : list byte) (p : Z) (log : list (Z * Z)) (f : SpecFile)
  : DecSt :=
  mkDecSt (mkIstream c p false false log) f.

Definition on_input (f : istream -> istream) : M DecSt unit :=
  modify (fun st => mkDecSt (f (input st)) (self st)).

Definition on_self (f : SpecFile -> SpecFile) : M DecSt unit :=
  modify (fun st => mkDecSt (input st) (f (self st))).

(** [input.seekg( p, std::ios::beg )] with [p] a [size_t]. *)
Definition seekg (p : Z) : M DecSt unit :=
  on_input (istream_seekg (to_streamoff p)).

Definition tellg : M DecSt Z :=
  fun st =>
    let '(p, i') := istream_tellg (input st) in
    (Val p, mkDecSt i' (self st)).

(** [input.read( buf, n )] as the stream sees it: the bytes extracted. *)
Definition read_some (n : Z) : M DecSt (list byte) :=
  fun st =>
    let '(got, i') := istream_read n (input st) in
    (Val got, mkDecSt i' (self st)).

(** [input.read( buf, n )] into a local buffer that is consumed right
    after: when fewer than [n] bytes arrive, the rest of the buffer is
    indeterminate (or stale) and the model stops. *)
Definition read_local (n : Z) : M DecSt (list byte) :=
  do got <- read_some n;
  if Z.of_nat (length got) <? n then abort IndeterminateValue else ret got.

(** Modelled from the spec: [read_binary_data] is declared in
    SpecUtils/ParseUtils.h.  It reads [sizeof(T)] bytes as a little-endian
    unsigned integer. *)
Definition read_binary_data (size : Z) : M DecSt Z :=
  do bs <- read_local size;
  ret (Int.le_to_Z bs).

(** *** [findCnfBlock] (lines 174-185)

    The reference parameter [pos] is returned next to the result: it
    keeps the last candidate also when nothing is found. *)
Fixpoint findCnfBlock_loop (fuel : nat) (B : byte) (pos streamsize : Z)
  : M DecSt (bool * Z) :=
  if Int.usize (pos + 512) <? streamsize then
    match fuel with
    | O => abort FuelExhausted
    | S fuel' =>
        run seekg pos;
        do bytes <- read_local 2;
        match bytes with
        | [b0; b1] =>
            if Byte.eqb b0 B && Byte.eqb b1 x20 then ret (true, pos)
            else findCnfBlock_loop fuel' B (Int.usize (pos + 512)) streamsize
        | _ => abort IndeterminateValue
        end
    end
  else ret (false, pos).

Definition findCnfBlock (B : byte) (SBeg streamsize : Z) : M DecSt (bool * Z) :=
  findCnfBlock_loop (Z.to_nat (streamsize / 512) + 2)%nat B SBeg streamsize.

(** *** [readCnfFloat] (lines 190-202) *)

(** The body after the four bytes of [Buf] have been read. *)
Definition cnf_float_of_Buf (Buf0 Buf1 Buf2 Buf3 : byte) : F32.t :=
  let TmpBuf0 := Buf2 in
  let TmpBuf1 := Buf3 in
  let TmpBuf2 := Buf0 in
  let TmpBuf3 := Buf1 in
  let val := F32.of_bits (Int.le_to_Z [TmpBuf0; TmpBuf1; TmpBuf2; TmpBuf3]) in
  F32.mul F32.quarter val.

Definition readCnfFloat : M DecSt F32.t :=
  do Buf <- read_local 4;
  match Buf with
  | [b0; b1; b2; b3] => ret (cnf_float_of_Buf b0 b1 b2 b3)
  | _ => abort IndeterminateValue
  end.

(** *** Pieces of [load_from_cnf] *)

Definition nonempty (s : string) : bool := negb (String.eqb s "").

(** [J*429.4967296 + I/1.0E7] in [double]. *)
Definition cam_seconds (I J : Z) : F64.t :=
  F64.add (F64.mul (F64.of_Z J) F64.c_429_4967296)
          (F64.div (F64.of_Z I) F64.c_1e7).

(** [d*24.0*60.0*60.0] for an [int64_t] [d]. *)
Definition days_in_seconds (d : Z) : F64.t :=
  F64.mul (F64.mul (F64.mul (F64.of_Z d) F64.c_24) F64.c_60) F64.c_60.

(** Lines 280-297: the start time from the pair [(I, J)]. *)
Definition cam_days (seconds : F64.t) : Z :=
  F64.to_int64 (F64.div seconds (F64.mul (F64.mul F64.c_24 F64.c_60) F64.c_60)).

Definition cam_remainder_secs (seconds : F64.t) : Z :=
  F64.to_int64 (F64.sub seconds (days_in_seconds (cam_days seconds))).

Definition cam_remainder_ms (seconds : F64.t) : Z :=
  F64.to_int64
    (F64.mul
       (F64.sub (F64.sub seconds (days_in_seconds (cam_days seconds)))
                (F64.of_Z (cam_remainder_secs seconds)))
       F64.c_1e3).

(** The three additions inside the inner [try]; [None] when one raises. *)
Definition add_cam_duration (t0 : ptime) (seconds : F64.t) : option ptime :=
  t1 ← add_hours t0 (cam_days seconds * 24);
  t2 ← add_seconds t1 (cam_remainder_secs seconds);
  add_milliseconds t2 (cam_remainder_ms seconds).

Definition cnf_start_time (I J : Z) : ptime :=
  match add_cam_duration ptime_1858_Nov_17 (cam_seconds I J) with
  | Some t => t
  | None => not_a_date_time
  end.

(** Lines 299-309: real and live time from the complemented pair. *)
Definition cnf_duration (I J : Z) : F32.t :=
  let I' := Int.u32 (Int.UINT32_MAX - I) in
  let J' := Int.u32 (Int.UINT32_MAX - J) in
  F64.to_f32 (cam_seconds I' J').

(** Line 315. *)
Definition isPowerOfTwo (num_channels : Z) : bool :=
  negb (num_channels =? 0)
  && (Z.land num_channels (Int.u32 (num_channels - 1)) =? 0).

(** Line 316: the condition under which "Invalid number of channels" is
    thrown. *)
Definition invalid_num_channels (num_channels : Z) : bool :=
  negb (isPowerOfTwo num_channels)
  && ((64 <=? num_channels) && (num_channels <=? 65536)).

(** [l[idx] = v] on a [std::vector]; outside the vector the store has no
    defined behaviour. *)
Definition vec_store {A} (idx : Z) (v : A) (l : list A) : M DecSt (list A) :=
  if (0 <=? idx) && (idx <? Z.of_nat (length l))
  then ret (<[Z.to_nat idx := v]> l)
  else abort (OutOfBounds (Z.of_nat (length l)) idx).

Definition gamma_sum (init : F64.t) (vals : list F32.t) : F64.t :=
  fold_left (fun acc val => F64.add acc (F64.of_f32 val)) vals init.

(** The words of [channeldata] after [input.read] delivered [got] into
    the zero-initialised vector of [num_channels] entries. *)
Definition channeldata_after_read (num_channels : Z) (got : list byte)
  : list Z :=
  let n := Z.to_nat num_channels in
  Int.le_words n (got ++ replicate (4 * n - length got)%nat x00).

(** *** [SpecFile::load_from_cnf] (lines 171-442) *)

(** Lines 226-240: the optional title block. *)
Definition read_title_block (size : Z) (meas : Measurement)
  : M DecSt Measurement :=
  do '(found, SPos) <- findCnfBlock x01 0 size;
  if found then
    run seekg (Int.usize (SPos + 32 + 16));
    do buff <- read_local 64;
    let title := string_of_list_byte buff in
    do buff <- read_local 16;
    let sampleid := string_of_list_byte buff in
    let title := trim title in
    let sampleid := trim sampleid in
    let meas := with_title title meas in
    if nonempty sampleid
    then ret (with_meas_remarks
                (meas_remarks_ meas ++ [String.append "Sample ID: " sampleid])
                meas)
    else ret meas
  else ret meas.

(** The offsets of lines 250-257, computed in [size_t]. *)
Record offsets : Type := mkOffsets {
  record_offset : Z;
  num_channel_offset : Z;
  energy_calib_offset : Z;
  mca_offset : Z;
  instrument_offset : Z;
  generic_detector_offset : Z;
  specific_detector_offset : Z;
  serial_num_offset : Z
}.

Definition header_offsets (SPos w34 w36 : Z) : offsets :=
  {| record_offset := Int.usize (SPos + w36 + 48 + 1);
     num_channel_offset := Int.usize (SPos + 48 + 137);
     energy_calib_offset := Int.usize (SPos + w34 + 48 + 68);
     mca_offset := Int.usize (SPos + w34 + 48 + 156);
     instrument_offset := Int.usize (SPos + w34 + 48 + 1);
     generic_detector_offset := Int.usize (SPos + w34 + 48 + 732);
     specific_detector_offset := Int.usize (SPos + w34 + 48 + 26);
     serial_num_offset := Int.usize (SPos + w34 + 48 + 940) |}.

(** The condition of lines 259-267. *)
Definition offsets_out_of_range (o : offsets) (size : Z) : bool :=
  (size <? Int.usize (record_offset o + 24))
  || (size <? Int.usize (energy_calib_offset o + 12))
  || (size <? Int.usize (num_channel_offset o + 4))
  || (size <? Int.usize (mca_offset o + 8))
  || (size <? Int.usize (instrument_offset o + 31))
  || (size <? Int.usize (generic_detector_offset o + 8))
  || (size <? Int.usize (specific_detector_offset o + 16))
  || (size <? Int.usize (serial_num_offset o + 12)).

(** Lines 242-270: locate the header block and compute the offsets. *)
Definition locate_header (size : Z) : M DecSt offsets :=
  do '(found, SPos) <- findCnfBlock x00 0 size;
  if negb found then throw (runtime_error "Couldnt find record data")
  else
    run seekg (Int.usize (SPos + 34));
    do w34 <- read_binary_data 2;
    do w36 <- read_binary_data 2;
    let o := header_offsets SPos w34 w36 in
    if offsets_out_of_range o size
    then throw (runtime_error "Invalid record offset")
    else ret o.

(** Lines 272-309: start time, real time and live time. *)
Definition read_times (o : offsets) (meas : Measurement)
  : M DecSt Measurement :=
  run seekg (record_offset o);
  do I <- read_binary_data 4;
  do J <- read_binary_data 4;
  let meas := with_start_time (cnf_start_time I J) meas in
  do I <- read_binary_data 4;
  do J <- read_binary_data 4;
  let meas := with_real_time (cnf_duration I J) meas in
  do I <- read_binary_data 4;
  do J <- read_binary_data 4;
  let meas := with_live_time (cnf_duration I J) meas in
  ret meas.

(** Lines 311-317: the channel count and its plausibility check. *)
Definition read_num_channels (o : offsets) : M DecSt Z :=
  run seekg (num_channel_offset o);
  do num_channels <- read_binary_data 4;
  if invalid_num_channels num_channels
  then throw (runtime_error "Invalid number of channels")
  else ret num_channels.

(** Lines 334-345: what follows the validity check of the coefficients. *)
Definition settle_calibration (validCalib : bool) (coeffs : list F32.t)
    (meas : Measurement) : M DecSt Measurement :=
  let meas := with_calibration coeffs Polynomial meas in
  if negb validCalib then
    let allZeros := forallb F32.is_zero coeffs in
    if negb allZeros
    then throw (runtime_error "Calibration parameters were invalid")
    else ret (with_calibration [] InvalidEquationType meas)
  else ret meas.

(** Lines 319-345: the energy calibration. *)
Definition read_calibration (o : offsets) (num_channels : Z)
    (meas : Measurement) : M DecSt Measurement :=
  run seekg (energy_calib_offset o);
  do c0 <- readCnfFloat;
  do c1 <- readCnfFloat;
  do c2 <- readCnfFloat;
  let coeffs := [c0; c1; c2] in
  let dummy_devpairs := [] in
  let validCalib :=
    calibration_is_valid Polynomial coeffs dummy_devpairs num_channels in
  settle_calibration validCalib coeffs meas.

(** Lines 347-377: MCA type, instrument name and the detector guess. *)
Definition read_instrument (o : offsets) (meas : Measurement)
  : M DecSt Measurement :=
  run seekg (mca_offset o);
  do buff <- read_local 8;
  let mca_type := trim (string_of_list_byte buff) in
  run (if nonempty mca_type
       then on_self (push_remark (String.append "MCA Type: " mca_type))
       else ret tt);
  run seekg (instrument_offset o);
  do buff <- read_local 31;
  let instrument_name := trim (string_of_list_byte buff) in
  let meas := if nonempty instrument_name
              then with_detector_name instrument_name meas else meas in
  run seekg (generic_detector_offset o);
  do buff <- read_local 8;
  let generic_detector := trim (string_of_list_byte buff) in
  run (if String.eqb mca_type "I2K" && String.eqb generic_detector "Ge"
       then on_self (set_instrument Falcon5000 "Spectrometer" "Canberra"
                                    "Falcon 5000")
       else ret tt);
  ret meas.

(** Lines 411-421: drop the first two channels, convert and sum. *)
Definition finish_channel_data (channeldata : list Z) (meas : Measurement)
  : M DecSt Measurement :=
  do channeldata <- vec_store 1 0 channeldata;
  do channeldata <- vec_store 0 0 channeldata;
  let channel_data := map F32.of_Z channeldata in
  ret (with_gamma (Some channel_data)
                  (gamma_sum (gamma_count_sum_ meas) channel_data)
                  meas).

(** Lines 395-421: the channel data. *)
Definition read_channel_data (size num_channels : Z) (meas : Measurement)
  : M DecSt Measurement :=
  let SBeg := 0 in
  do '(found, SPos) <- findCnfBlock x05 SBeg size;
  if negb found
  then throw (runtime_error "Couldnt locate channel data portion of file")
  else
    let SBeg := Int.usize (SPos + 512) in
    do '(found, SPos) <- findCnfBlock x05 SBeg size;
    run (if found then seekg (Int.usize (SPos + 512)) else seekg SBeg);
    if size <? Int.usize (SBeg + Int.u32 (4 * num_channels))
    then throw (runtime_error "Invalid file size")
    else
      do got <- read_some (Int.u32 (4 * num_channels));
      let channeldata := channeldata_after_read num_channels got in
      finish_channel_data channeldata meas.

(** Lines 216-270: the stream size, the title block, the header block and
    its offsets.  Returns [size], the offsets and the record so far. *)
Definition open_header (orig_pos : Z) : M DecSt (Z * offsets * Measurement) :=
  run on_input istream_seekg_end;
  do eof_pos <- tellg;
  run on_input (istream_seekg 0);
  let size := Int.usize (0 + eof_pos - orig_pos) in
  let meas := new_Measurement in
  do meas <- read_title_block size meas;
  do o <- locate_header size;
  ret (size, o, meas).

(** Lines 216-393: everything before the channel data.  Returns [size],
    [num_channels] and the record filled in so far. *)
Definition read_header (orig_pos : Z) : M DecSt (Z * Z * Measurement) :=
  do '(size, o, meas) <- open_header orig_pos;
  do meas <- read_times o meas;
  do num_channels <- read_num_channels o;
  do meas <- read_calibration o num_channels meas;
  do meas <- read_instrument o meas;
  ret (size, num_channels, meas).

(** The [try] block, lines 216-429. *)
Definition load_from_cnf_try (orig_pos : Z) : M DecSt unit :=
  do '(size, num_channels, meas) <- read_header orig_pos;
  do meas <- read_channel_data size num_channels meas;
  on_self (push_measurement meas).

(** The [catch( std::exception & )] block, lines 430-437. *)
Definition load_from_cnf_catch (orig_pos : Z) : M DecSt bool :=
  run on_input istream_clear;
  run on_input (istream_seekg orig_pos);
  run on_self reset;
  ret false.

Definition load_from_cnf : M DecSt bool :=
  run on_self reset;
  do st <- get;
  if negb (istream_good (input st)) then ret false
  else
    do orig_pos <- tellg;
    do loaded <- try_catch (run load_from_cnf_try orig_pos; ret true)
                           (fun _ => load_from_cnf_catch orig_pos);
    if loaded
    then run on_self cleanup_after_load; ret true
    else ret false.

(** *** [SpecFile::load_cnf_file] (lines 151-168)

    The state is [*this]; the stream is a local of the function.  [fs]
    is the file system as [std::ifstream] sees it: the bytes of the file
    a name opens, [None] when the open fails.  A stream just opened is
    good and at offset 0. *)
Definition load_cnf_file (fs : string -> option (list byte))
    (filename : string) : M SpecFile bool :=
  run modify reset;
  match fs filename with
  | None => ret false
  | Some bytes =>
      fun this =>
        let file := mkIstream bytes 0 false false [] in
        match load_from_cnf (mkDecSt file this) with
        | (Val loaded, st) =>
            (Val loaded,
             if loaded then set_filename filename (self st) else self st)
        | (Exn e, st) => (Exn e, self st)
        | (Stuck u, st) => (Stuck u, self st)
        end
  end.

End Decoder.

(** ** [SpecFile::write_cnf] (lines 445-566) *)

Section Encoder.

Context {PT : PosixTime} {CO : Collaborators}.

(** State of an encode: the bytes written to [output] and the lines
    printed to [cerr].  [*this] is [const]. *)
Record EncSt : Type := mkEncSt {
  output : list byte;
  cerr : list string
}.

Definition call {A} (r : exn + A) : M EncSt A :=
  match r with
  | inl e => throw e
  | inr a => ret a
  end.

(** Lines 457-463: the detector mask. *)
Definition detector_mask (this : SpecFile) (det_nums : gset Z) : list bool :=
  if decide (det_nums = ∅)
  then replicate (length (detector_numbers_ this)) true
  else map (fun d => bool_decide (d ∈ det_nums)) (detector_numbers_ this).

(** Lines 484-502: the coefficients in polynomial form. *)
Definition polynomial_coeffs (summed : Measurement)
    (gamma_channel_counts : list F32.t) : M EncSt (list F32.t) :=
  let energy_cal_coeffs := calibration_coeffs_ summed in
  match energy_calibration_model_ summed with
  | Polynomial | UnspecifiedUsingDefaultPolynomial => ret energy_cal_coeffs
  | FullRangeFraction =>
      call (fullrangefraction_coef_to_polynomial energy_cal_coeffs
              (Z.of_nat (length gamma_channel_counts)))
  | LowerChannelEdge | InvalidEquationType => ret []
  end.

(** The [try] block, lines 451-556.  Its value is that of the [return]
    statement it leaves through. *)
Definition write_cnf_try (this : SpecFile) (sample_nums det_nums : gset Z)
  : M EncSt bool :=
  let sample_nums :=
    if decide (sample_nums = ∅) then sample_numbers_ this else sample_nums in
  let detectors := detector_mask this det_nums in
  do summed <- call (sum_measurements this sample_nums detectors);
  match summed with
  | None => ret false
  | Some summed =>
      match gamma_counts_ summed with
      | None => ret false
      | Some [] => ret false
      | Some gamma_channel_counts =>
          let real_time := real_time_ summed in
          let live_time := live_time_ summed in
          do energy_cal_coeffs <- polynomial_coeffs summed gamma_channel_counts;
          let deviation_pairs := deviation_pairs_ summed in
          let sum_neutrons := neutron_counts_sum_ summed in
          let had_neutrons := contained_neutron_ summed in
          let start_time := start_time_ summed in
          let fractional :=
            if negb (is_special start_time)
            then Some (F64.div (F64.of_Z (fractional_seconds start_time))
                               (F64.of_Z ticks_per_second))
            else None in
          let results :=
            match detectors_analysis_ this with
            | Some ana => if negb (analysis_is_empty ana)
                          then results_ ana else []
            | None => []
            end in
          throw (runtime_error "Writing CNF files not yet implemented.")
      end
  end.

(** The [catch( std::exception &e )] block, lines 558-563. *)
Definition write_cnf_catch (e : exn) : M EncSt bool :=
  let 'runtime_error what := e in
  run modify (fun st =>
        mkEncSt (output st)
                (cerr st ++ [String.append "Failed to write CNF file: " what]));
  ret false.

Definition write_cnf (this : SpecFile) (sample_nums det_nums : gset Z)
  : M EncSt bool :=
  try_catch (write_cnf_try this sample_nums det_nums) write_cnf_catch.

End Encoder.

(** ** A concrete environment

    One implementation of the two interfaces, used to run the codec on
    concrete streams. *)

Module Sample.

(** A clock counting microseconds from 1858-11-17 00:00:00, [None] being
    not-a-date-time; it covers roughly the years 1400 to 9999 and raises
    when an addition leaves that range. *)
Definition min_ticks : Z := - 14482886400000000.
Definition max_ticks : Z := 256900204800000000.

Definition shift (t : option Z) (ticks : Z) : option (option Z) :=
  match t with
  | None => Some None
  | Some u =>
      if (min_ticks <=? u + ticks) && (u + ticks <=? max_ticks)
      then Some (Some (u + ticks)) else None
  end.

#[export] Instance clock : PosixTime := {|
  ptime := option Z;
  ptime_1858_Nov_17 := Some 0;
  not_a_date_time := None;
  add_hours t n := shift t (n * 3600000000);
  add_seconds t n := shift t (n * 1000000);
  add_milliseconds t n := shift t (n * 1000);
  is_special t := match t with None => true | Some _ => false end;
  fractional_seconds t :=
    match t with Some u => u mod 1000000 | None => 0 end;
  ticks_per_second := 1000000
|}.

Definition is_pad (c : Ascii.ascii) : bool :=
  (Ascii.nat_of_ascii c =? 0)%nat || (Ascii.nat_of_ascii c =? 32)%nat
  || (Ascii.nat_of_ascii c =? 9)%nat || (Ascii.nat_of_ascii c =? 10)%nat
  || (Ascii.nat_of_ascii c =? 13)%nat.

Fixpoint drop_pad (s : string) : string :=
  match s with
  | String c r => if is_pad c then drop_pad r else s
  | EmptyString => EmptyString
  end.

Fixpoint drop_pad_end (s : string) : string :=
  match s with
  | String c r =>
      match drop_pad_end r with
      | EmptyString => if is_pad c then EmptyString else String c EmptyString
      | r' => String c r'
      end
  | EmptyString => EmptyString
  end.

(** Modelled from the spec: [SpecFile::reset()] is declared in
    SpecUtils/SpecFile.h and defined outside this translation unit.  It is
    the "full reset, not partial" of the codec facade: every member goes
    back to the value a newly constructed object has. *)
Definition full_reset (f : SpecFile) : SpecFile := empty_SpecFile.

#[export] Instance collaborators : Collaborators := {|
  trim s := drop_pad_end (drop_pad s);
  reset := full_reset;
  calibration_is_valid ty coeffs devpairs nchannel :=
    match coeffs with
    | [_; gain; _] => SFltb F32.zero gain
    | _ => false
    end;
  cleanup_after_load f := f;
  sum_measurements f samples detectors := inr (head (measurements_ f));
  fullrangefraction_coef_to_polynomial coeffs nchannel := inr coeffs;
  analysis_is_empty a := match results_ a with [] => true | _ => false end
|}.

(** Overwrite the bytes of [l] from offset [off] on with [bs]. *)
Definition poke (off : nat) (bs : list byte) (l : list byte) : list byte :=
  take off l ++ bs ++ drop (off + length bs) l.

Definition open_stream (bytes : list byte) : istream :=
  mkIstream bytes 0 false false [].

Definition decode (bytes : list byte) (host : SpecFile) : Res bool * DecSt :=
  load_from_cnf (mkDecSt (open_stream bytes) host).

(** Header block at 0 with channel count 2, one channel-data block at
    512 and nothing else: 1100 bytes. *)
Definition one_block_file : list byte :=
  poke 0 [x00; x20] (poke 185 [x02] (poke 512 [x05; x20]
    (poke 1024 [x00; x00; x00; x00; x07; x00; x00; x00]
       (replicate 1100 x00)))).

(** As [one_block_file], with a second channel-data block at 1024 and
    the file cut one byte after offset 1536. *)
Definition two_block_file : list byte :=
  poke 0 [x00; x20] (poke 185 [x02] (poke 512 [x05; x20]
    (poke 1024 [x05; x20] (replicate 1537 x00)))).

(** As [one_block_file], with channel count 0, respectively 1. *)
Definition zero_channel_file : list byte := poke 185 [x00] one_block_file.
Definition one_channel_file : list byte := poke 185 [x01] one_block_file.

(** As [one_block_file], with channel count 96. *)
Definition odd_count_file : list byte := poke 185 [x60] one_block_file.

(** As [one_block_file], with [J = 0xFFFFFFFF] in the start-time pair. *)
Definition far_future_file : list byte :=
  poke 53 [xff; xff; xff; xff] one_block_file.

(** Header block at 0, 64 channels, one channel-data block at 512
    followed by an all-zero channel array: 1280 bytes. *)
Definition blank_spectrum_file : list byte :=
  poke 0 [x00; x20] (poke 185 [x40] (poke 512 [x05; x20]
    (replicate 1280 x00))).

(** The characters of a text field. *)
Definition chars (s : string) : list byte := list_byte_of_string s.

(** A file with every field filled in, 1552 bytes: header block at 0
    with [w34 = 0] and [w36 = 256], four channels, gain 1.0, detector name
    "Det1", MCA type "I2K", generic detector "Ge"; title block at 512 with
    title "Co-60" and sample id "S1"; channel-data block at 1024 followed
    by the words 5, 6, 7 and 9. *)
Definition full_file : list byte :=
  poke 0 [x00; x20] (poke 36 [x00; x01]
    (poke 49 (chars "Det1") (poke 120 [x80; x40; x00; x00]
      (poke 185 [x04] (poke 204 (chars "I2K")
        (poke 512 [x01; x20] (poke 560 (chars "Co-60")
          (poke 624 (chars "S1") (poke 780 (chars "Ge")
            (poke 1024 [x05; x20]
              (poke 1536 [x05; x00; x00; x00; x06; x00; x00; x00;
                          x07; x00; x00; x00; x09; x00; x00; x00]
                 (replicate 1552 x00)))))))))))).

(** The first 600 bytes of [one_block_file]. *)
Definition truncated_file : list byte := take 600 one_block_file.

(** A host object that already holds a measurement and a file name. *)
Definition loaded_host : SpecFile :=
  mkSpecFile "previous.cnf" ["kept"] [new_Measurement] Unknown
             "" "" "" ∅ [] None.

End Sample.


(** ** Notions the statements are phrased in *)

(** The [n] bytes of [c] that start at offset [p]. *)
Definition bytes_at (c : list byte) (p n : Z) : list byte :=
  take (Z.to_nat n) (drop (Z.to_nat p) c).

(** A block tagged [B] starts at offset [p]: the two bytes there are
    [(B, 0x20)]. *)
Definition is_marker (c : list byte) (B : byte) (p : Z) : bool :=
  match bytes_at c p 2 with
  | [b0; b1] => Byte.eqb b0 B && Byte.eqb b1 x20
  | _ => false
  end.

(** [F] is the first candidate [SBeg + 512*k] below [size - 512] that
    carries the marker. *)
Definition first_block (c : list byte) (B : byte) (SBeg size F : Z) : Prop :=
  exists k, 0 <= k /\ F = SBeg + 512 * k /\ F + 512 < size
            /\ is_marker c B F = true
            /\ forall i, 0 <= i < k -> is_marker c B (SBeg + 512 * i) = false.

(** No candidate from [SBeg] on carries the marker. *)
Definition no_block (c : list byte) (B : byte) (SBeg size : Z) : Prop :=
  forall i, 0 <= i -> SBeg + 512 * i + 512 < size ->
            is_marker c B (SBeg + 512 * i) = false.

(** The log entries of a scan that visited [n] candidates from [SBeg]. *)
Definition candidate_reads (SBeg n : Z) : list (Z * Z) :=
  (fun i => (SBeg + 512 * i, 2)) <$> seqZ 0 n.

(** A stream as the operating system hands it over: the get position is
    inside the file and file offsets fit [std::streamoff]. *)
Definition wf_stream (s : istream) : Prop :=
  0 <= gpos s <= stream_length s /\ stream_length s < 2 ^ 63.

(** What a scan from [SBeg] that ended at candidate number [k] has
    established. *)
Definition scan_outcome (c : list byte) (B : byte) (SBeg size : Z)
    (found : bool) (k : Z) : Prop :=
  0 <= k
  /\ (forall i, 0 <= i < k ->
        SBeg + 512 * i + 512 < size
        /\ is_marker c B (SBeg + 512 * i) = false)
  /\ (if found
      then SBeg + 512 * k + 512 < size
           /\ is_marker c B (SBeg + 512 * k) = true
      else size <= SBeg + 512 * k + 512).

(** The IEEE-754 single-precision value whose byte representation, least
    significant byte first, is [bs]: bit 7 of the last byte is the sign,
    the next eight bits the biased exponent, the low 23 bits the
    fraction. *)
Definition ieee754_single_of_bytes (bs : list byte) : F32.t :=
  match bs with
  | [c0; c1; c2; c3] =>
      let c0 := Int.byte_to_Z c0 in
      let c1 := Int.byte_to_Z c1 in
      let c2 := Int.byte_to_Z c2 in
      let c3 := Int.byte_to_Z c3 in
      let sign := 128 <=? c3 in
      let biased := 2 * (c3 mod 128) + c2 / 128 in
      let fraction := 65536 * (c2 mod 128) + 256 * c1 + c0 in
      if biased =? 0 then
        if fraction =? 0 then S754_zero sign
        else S754_finite sign (Z.to_pos fraction) (-149)
      else if biased =? 255 then
        if fraction =? 0 then S754_infinity sign else S754_nan
      else S754_finite sign (Z.to_pos (8388608 + fraction)) (biased - 150)
  | _ => S754_nan
  end.

(** [[b0,b1,b2,b3]] reordered to [[b2,b3,b0,b1]]. *)
Definition word_swap (bs : list byte) : list byte :=
  match bs with
  | [b0; b1; b2; b3] => [b2; b3; b0; b1]
  | _ => bs
  end.

(** The word-swapped float stored at offset [p] of [c], as the format
    describes it: a quarter of the single whose bytes are the swapped
    ones. *)
Definition cnf_float_at (c : list byte) (p : Z) : F32.t :=
  F32.mul F32.quarter (ieee754_single_of_bytes (word_swap (bytes_at c p 4))).

(** The little-endian [uint32_t] stored at offset [p] of [c]. *)
Definition u32_at (c : list byte) (p : Z) : Z :=
  Int.le_to_Z (bytes_at c p 4).

(** A computation changes neither the bytes of the stream nor the
    measurements the host object holds. *)
Definition keeps_content {PT : PosixTime} {A : Type} (m : M DecSt A) : Prop :=
  forall st,
    content (input (snd (m st))) = content (input st)
    /\ measurements_ (self (snd (m st))) = measurements_ (self st).

(** The spectrum [write_cnf] asks [sum_measurements] for. *)
Definition summed_spectrum {PT : PosixTime} {CO : Collaborators}
    (this : SpecFile) (sample_nums det_nums : gset Z)
  : exn + option Measurement :=
  sum_measurements this
    (if decide (sample_nums = ∅) then sample_numbers_ this else sample_nums)
    (detector_mask this det_nums).

(** [!summed || !summed->gamma_counts() || summed->gamma_counts()->empty()] *)
Definition missing_or_empty {PT : PosixTime} (summed : option Measurement)
  : Prop :=
  match summed with
  | None => True
  | Some m => gamma_counts_ m = None \/ gamma_counts_ m = Some []
  end.

(** Every field the header parser reads lies inside the first [size]
    bytes. *)
Definition offsets_in_range (o : offsets) (size : Z) : Prop :=
  (0 <= record_offset o /\ record_offset o + 24 <= size)
  /\ (0 <= num_channel_offset o /\ num_channel_offset o + 4 <= size)
  /\ (0 <= energy_calib_offset o /\ energy_calib_offset o + 12 <= size)
  /\ (0 <= mca_offset o /\ mca_offset o + 8 <= size)
  /\ (0 <= instrument_offset o /\ instrument_offset o + 31 <= size)
  /\ (0 <= generic_detector_offset o
      /\ generic_detector_offset o + 8 <= size).

(** The little-endian [uint16_t] stored at offset [p] of [c]. *)
Definition u16_at (c : list byte) (p : Z) : Z :=
  Int.le_to_Z (bytes_at c p 2).

(** The [n] characters stored at offset [p] of [c], trimmed. *)
Definition text_at {PT : PosixTime} {CO : Collaborators}
    (c : list byte) (p n : Z) : string :=
  trim (string_of_list_byte (bytes_at c p n)).

(** The offsets a header block at [H] gives, with the two [uint16_t] at
    [H + 34] and [H + 36]. *)
Definition header_at (c : list byte) (H : Z) : offsets :=
  header_offsets H (u16_at c (H + 34)) (u16_at c (H + 36)).

(** What a title block at [T] contributes to the record: the title at
    [T + 48] and, when it is not blank, the sample id at [T + 112]. *)
Definition title_fields {PT : PosixTime} {CO : Collaborators}
    (c : list byte) (T : Z) (meas : Measurement) : Measurement :=
  let meas := with_title (text_at c (T + 48) 64) meas in
  let sampleid := text_at c (T + 112) 16 in
  if nonempty sampleid
  then with_meas_remarks
         (meas_remarks_ meas ++ [String.append "Sample ID: " sampleid]) meas
  else meas.

(** The three times, from the six [uint32_t] at [record_offset]. *)
Definition time_fields {PT : PosixTime}
    (c : list byte) (o : offsets) (meas : Measurement) : Measurement :=
  let r := record_offset o in
  with_live_time
    (cnf_duration (u32_at c (r + 16)) (u32_at c (r + 20)))
    (with_real_time
       (cnf_duration (u32_at c (r + 8)) (u32_at c (r + 12)))
       (with_start_time
          (cnf_start_time (u32_at c r) (u32_at c (r + 4))) meas)).

(** The three coefficients stored at [energy_calib_offset]. *)
Definition coefficients_at (c : list byte) (o : offsets) : list F32.t :=
  let q := energy_calib_offset o in
  [cnf_float_at c q; cnf_float_at c (q + 4); cnf_float_at c (q + 8)].

(** The calibration the record gets from them; [None] when the decode
    refuses them. *)
Definition calibration_fields {PT : PosixTime} {CO : Collaborators}
    (c : list byte) (o : offsets) (n : Z) (meas : Measurement)
  : option Measurement :=
  let coeffs := coefficients_at c o in
  if calibration_is_valid Polynomial coeffs [] n
  then Some (with_calibration coeffs Polynomial meas)
  else if forallb F32.is_zero coeffs
       then Some (with_calibration [] InvalidEquationType
                    (with_calibration coeffs Polynomial meas))
       else None.

(** The detector name, from the 31 characters at [instrument_offset]. *)
Definition name_field {PT : PosixTime} {CO : Collaborators}
    (c : list byte) (o : offsets) (meas : Measurement) : Measurement :=
  let instrument_name := text_at c (instrument_offset o) 31 in
  if nonempty instrument_name
  then with_detector_name instrument_name meas else meas.

(** What the instrument fields do to the host object: a remark for a
    non-blank MCA type, and the Falcon 5000 guess. *)
Definition instrument_fields {PT : PosixTime} {CO : Collaborators}
    (c : list byte) (o : offsets) (f : SpecFile) : SpecFile :=
  let mca_type := text_at c (mca_offset o) 8 in
  let generic_detector := text_at c (generic_detector_offset o) 8 in
  let f := if nonempty mca_type
           then push_remark (String.append "MCA Type: " mca_type) f
           else f in
  if String.eqb mca_type "I2K" && String.eqb generic_detector "Ge"
  then set_instrument Falcon5000 "Spectrometer" "Canberra" "Falcon 5000" f
  else f.

(** The histogram made of the bytes [got] the bulk read delivered. *)
Definition histogram (n : Z) (got : list byte) : list F32.t :=
  map F32.of_Z
      (<[0%nat := 0]> (<[1%nat := 0]> (channeldata_after_read n got))).

Definition spectrum_fields {PT : PosixTime}
    (n : Z) (got : list byte) (meas : Measurement) : Measurement :=
  with_gamma (Some (histogram n got))
             (gamma_sum (gamma_count_sum_ meas) (histogram n got)) meas.

(** The coefficients are refused: the checker rejects them and they are
    not all zero. *)
Definition calibration_refused {PT : PosixTime} {CO : Collaborators}
    (c : list byte) (o : offsets) (n : Z) : bool :=
  negb (calibration_is_valid Polynomial (coefficients_at c o) [] n)
  && negb (forallb F32.is_zero (coefficients_at c o)).

(** One of the three checks on a header block at [H] fails: the range
    of the offsets, the channel count, the coefficients. *)
Definition header_refused {PT : PosixTime} {CO : Collaborators}
    (c : list byte) (size H : Z) : bool :=
  let o := header_at c H in
  let n := u32_at c (num_channel_offset o) in
  offsets_out_of_range o size
  || invalid_num_channels n
  || calibration_refused c o n.

(** The first [size] bytes of [c] pass every check of the decoder, with
    channel count [n]: there is a header block, the first one passes the
    three header checks, there is a channel block, and the size check
    made on the first one passes. *)
Definition acceptable {PT : PosixTime} {CO : Collaborators}
    (c : list byte) (size n : Z) : Prop :=
  exists H F,
    first_block c x00 0 size H
    /\ n = u32_at c (num_channel_offset (header_at c H))
    /\ header_refused c size H = false
    /\ first_block c x05 0 size F
    /\ F + 512 + Int.u32 (4 * n) <= size.

(** The record after the optional title block: the fields of the first
    block tagged [0x01], or a fresh record when there is none. *)
Definition title_record {PT : PosixTime} {CO : Collaborators}
    (c : list byte) (size : Z) (meas : Measurement) : Prop :=
  (exists T, first_block c x01 0 size T
             /\ meas = title_fields c T new_Measurement)
  \/ (no_block c x01 0 size /\ meas = new_Measurement).

(** What a header parse that returns has established: the header block
    is the first block tagged [0x00], its offsets passed the range check,
    the channel count [n] passed the plausibility check, the coefficients
    were accepted, [meas] carries the title, times, calibration and
    detector name, and the host [f] has become [f']. *)
Definition parsed_header {PT : PosixTime} {CO : Collaborators}
    (c : list byte) (size : Z) (f : SpecFile)
    (n : Z) (meas : Measurement) (f' : SpecFile) : Prop :=
  exists H meas0 meas1,
    first_block c x00 0 size H
    /\ offsets_out_of_range (header_at c H) size = false
    /\ offsets_in_range (header_at c H) size
    /\ n = u32_at c (num_channel_offset (header_at c H))
    /\ invalid_num_channels n = false
    /\ title_record c size meas0
    /\ calibration_fields c (header_at c H) n
         (time_fields c (header_at c H) meas0) = Some meas1
    /\ meas = name_field c (header_at c H) meas1
    /\ f' = instrument_fields c (header_at c H) f.

(** Where the bulk read of [cnt] bytes starts: [512] bytes after the
    first block tagged [0x05], at [F], or after the next one when the scan
    that resumes there finds one.  The size check is made on [F]. *)
Definition channel_array_at (c : list byte) (size cnt start : Z) : Prop :=
  exists F,
    first_block c x05 0 size F
    /\ F + 512 + cnt <= size
    /\ ((no_block c x05 (F + 512) size /\ start = F + 512)
        \/ (exists S, first_block c x05 (F + 512) size S
                      /\ start = S + 512)).

(** What a [try] block that runs to completion has done to the host
    object [f]: one record, made of the header fields and of the bytes
    the bulk read delivered, has been appended. *)
Definition decoded {PT : PosixTime} {CO : Collaborators}
    (c : list byte) (size : Z) (f f' : SpecFile) : Prop :=
  exists n meas f1 start,
    parsed_header c size f n meas f1
    /\ 2 <= n
    /\ channel_array_at c size (Int.u32 (4 * n)) start
    /\ f' = push_measurement
              (spectrum_fields n (bytes_at c start (Int.u32 (4 * n))) meas)
              f1.

(** Where a [try] block that runs to completion leaves the stream:
    right after the bytes the bulk read delivered, with both state bits
    set when they were fewer than requested. *)
Definition left_after_read {PT : PosixTime} {CO : Collaborators}
    (c : list byte) (size : Z) (i : istream) : Prop :=
  exists n start log',
    acceptable c size n
    /\ channel_array_at c size (Int.u32 (4 * n)) start
    /\ let cnt := Int.u32 (4 * n) in
       let got := Z.of_nat (length (bytes_at c start cnt)) in
       i = mkIstream c (start + got) (got <? cnt) (got <? cnt)
                     (log' ++ [(start, cnt)]).

(** ** Properties *)

Section StreamLemmas.

Context {PT : PosixTime} {CO : Collaborators}.

Lemma usize_small x : 0 <= x < 2 ^ 64 -> Int.usize x = x.
Proof. intros H. unfold Int.usize, Int.wrap. now apply Z.mod_small. Qed.

Lemma to_streamoff_small x : x < 2 ^ 63 -> to_streamoff x = x.
Proof.
  intros H. unfold to_streamoff.
  destruct (Z.ltb_spec x (2 ^ 63)); [reflexivity | lia].
Qed.

Lemma length_bytes_at c p n :
  0 <= p -> 0 <= n -> p + n <= Z.of_nat (length c) ->
  Z.of_nat (length (bytes_at c p n)) = n.
Proof.
  intros Hp Hn Hle. unfold bytes_at.
  rewrite length_take, length_drop. lia.
Qed.

Lemma seekg_clean c p e log f q :
  0 <= q <= Z.of_nat (length c) -> q < 2 ^ 63 ->
  seekg q (mkDecSt (mkIstream c p false e log) f) = (Val tt, clean c q log f).
Proof.
  intros Hq Hlt. unfold seekg, on_input, modify, istream_seekg; simpl.
  rewrite to_streamoff_small by assumption.
  unfold stream_length; simpl.
  destruct (Z.leb_spec 0 q); [|lia].
  destruct (Z.leb_spec q (Z.of_nat (length c))); [|lia].
  reflexivity.
Qed.

Lemma read_some_clean c p log f n :
  0 <= p -> 0 <= n -> p + n <= Z.of_nat (length c) ->
  read_some n (clean c p log f)
  = (Val (bytes_at c p n), clean c (p + n) (log ++ [(p, n)]) f).
Proof.
  intros Hp Hn Hle. unfold read_some, clean, istream_read; simpl.
  fold (bytes_at c p n). rewrite length_bytes_at by assumption.
  rewrite Z.ltb_irrefl. reflexivity.
Qed.

Lemma read_local_clean c p log f n :
  0 <= p -> 0 <= n -> p + n <= Z.of_nat (length c) ->
  read_local n (clean c p log f)
  = (Val (bytes_at c p n), clean c (p + n) (log ++ [(p, n)]) f).
Proof.
  intros Hp Hn Hle. unfold read_local, bind.
  rewrite read_some_clean by assumption.
  rewrite length_bytes_at by assumption.
  rewrite Z.ltb_irrefl. reflexivity.
Qed.

Lemma read_binary_data_clean c p log f n :
  0 <= p -> 0 <= n -> p + n <= Z.of_nat (length c) ->
  read_binary_data n (clean c p log f)
  = (Val (Int.le_to_Z (bytes_at c p n)),
     clean c (p + n) (log ++ [(p, n)]) f).
Proof.
  intros Hp Hn Hle. unfold read_binary_data, bind.
  rewrite read_local_clean by assumption. reflexivity.
Qed.

Lemma two_bytes (l : list byte) :
  Z.of_nat (length l) = 2 -> exists b0 b1, l = [b0; b1].
Proof.
  destruct l as [|b0 [|b1 [|b2 l]]]; simpl; intros H; try lia.
  now exists b0, b1.
Qed.

Lemma four_bytes (l : list byte) :
  Z.of_nat (length l) = 4 -> exists b0 b1 b2 b3, l = [b0; b1; b2; b3].
Proof.
  destruct l as [|b0 [|b1 [|b2 [|b3 [|b4 l]]]]]; simpl; intros H; try lia.
  now exists b0, b1, b2, b3.
Qed.

Lemma candidate_reads_0 SBeg : candidate_reads SBeg 0 = [].
Proof. reflexivity. Qed.

Lemma candidate_reads_succ SBeg n :
  0 <= n ->
  candidate_reads SBeg (n + 1)
  = (SBeg, 2) :: candidate_reads (SBeg + 512) n.
Proof.
  intros Hn. unfold candidate_reads.
  replace (n + 1) with (Z.succ n) by lia.
  rewrite seqZ_cons by lia. simpl.
  rewrite Z.mul_0_r, Z.add_0_r. f_equal.
  replace (Z.succ 0) with (1 + 0) by lia.
  replace (Z.pred (Z.succ n)) with n by lia.
  rewrite <- (fmap_add_seqZ 1 0 n).
  rewrite <- list_fmap_compose.
  apply list_fmap_ext. intros _ i _. simpl. f_equal. lia.
Qed.

Lemma findCnfBlock_loop_clean fuel :
  forall B pos size c p0 e log f,
    0 <= pos -> pos + 512 < 2 ^ 64 ->
    size <= Z.of_nat (length c) -> Z.of_nat (length c) < 2 ^ 63 ->
    size - pos <= 512 * Z.of_nat fuel + 512 ->
    exists (found : bool) (k p' : Z) (e' : bool),
      findCnfBlock_loop fuel B pos size
        (mkDecSt (mkIstream c p0 false e log) f)
      = (Val (found, pos + 512 * k),
         mkDecSt (mkIstream c p' false e'
                    (log ++ candidate_reads pos (if found then k + 1 else k)))
                 f)
      /\ scan_outcome c B pos size found k.
Proof.
  unfold scan_outcome.
  induction fuel as [|fuel IH]; intros B pos size c p0 e log f
    Hpos Hwrap Hsize Hlen Hfuel.
  - exists false, 0, p0, e. simpl.
    rewrite usize_small by lia.
    destruct (Z.ltb_spec (pos + 512) size); [lia|].
    rewrite Z.mul_0_r, Z.add_0_r, candidate_reads_0, app_nil_r.
    split; [reflexivity|].
    repeat split; try lia.
  - simpl. rewrite usize_small by lia.
    destruct (Z.ltb_spec (pos + 512) size) as [Hin|Hout].
    + unfold bind at 1. rewrite seekg_clean by lia.
      unfold bind at 1. rewrite read_local_clean by lia.
      destruct (two_bytes (bytes_at c pos 2)) as (b0 & b1 & Hb);
        [apply length_bytes_at; lia|].
      rewrite Hb.
      destruct (Byte.eqb b0 B && Byte.eqb b1 x20) eqn:Hm.
      * exists true, 0, (pos + 2), false.
        rewrite Z.mul_0_r, Z.add_0_r.
        rewrite (candidate_reads_succ pos 0), candidate_reads_0 by lia.
        split; [reflexivity|].
        repeat split; try lia.
        unfold is_marker. rewrite Hb. exact Hm.
      * destruct (IH B (pos + 512) size c (pos + 2) false
                     (log ++ [(pos, 2)]) f)
          as (found & k & p' & e' & Heq & Hk & Hbefore & Hat); try lia.
        exists found, (k + 1), p', e'.
        unfold clean. rewrite Heq. split.
        -- f_equal; [do 2 f_equal; lia|].
           do 2 f_equal. rewrite <- app_assoc. f_equal. simpl.
           destruct found.
           ++ rewrite (candidate_reads_succ pos (k + 1)) by lia. reflexivity.
           ++ rewrite (candidate_reads_succ pos k) by lia. reflexivity.
        -- split; [lia|]. split.
           ++ intros i Hi. destruct (Z.eq_dec i 0) as [->|Hne].
              ** rewrite Z.mul_0_r, Z.add_0_r. split; [lia|].
                 unfold is_marker. rewrite Hb. exact Hm.
              ** specialize (Hbefore (i - 1) ltac:(lia)).
                 replace (pos + 512 + 512 * (i - 1)) with (pos + 512 * i)
                   in Hbefore by lia.
                 exact Hbefore.
           ++ replace (pos + 512 * (k + 1)) with (pos + 512 + 512 * k) by lia.
              exact Hat.
    + exists false, 0, p0, e.
      rewrite Z.mul_0_r, Z.add_0_r, candidate_reads_0, app_nil_r.
      split; [reflexivity|].
      repeat split; try lia.
Qed.

Lemma findCnfBlock_clean B SBeg size c p0 e log f :
  0 <= SBeg -> SBeg + 512 < 2 ^ 64 ->
  size <= Z.of_nat (length c) -> Z.of_nat (length c) < 2 ^ 63 ->
  exists (found : bool) (k p' : Z) (e' : bool),
    findCnfBlock B SBeg size (mkDecSt (mkIstream c p0 false e log) f)
    = (Val (found, SBeg + 512 * k),
       mkDecSt (mkIstream c p' false e'
                  (log ++ candidate_reads SBeg (if found then k + 1 else k)))
               f)
    /\ scan_outcome c B SBeg size found k.
Proof.
  intros HS Hwrap Hsize Hlen. unfold findCnfBlock.
  apply findCnfBlock_loop_clean; try assumption.
  destruct (Z.le_gt_cases 0 size) as [Hnn|Hneg]; [|lia].
  rewrite Nat2Z.inj_add, Z2Nat.id by (apply Z.div_pos; lia).
  pose proof (Z.mul_succ_div_gt size 512 ltac:(lia)). lia.
Qed.

Lemma scan_outcome_found c B SBeg size k :
  scan_outcome c B SBeg size true k ->
  first_block c B SBeg size (SBeg + 512 * k).
Proof.
  intros (Hk & Hbefore & Hlt & Hm). exists k.
  repeat split; try assumption.
  intros i Hi. now apply Hbefore.
Qed.

Lemma first_block_scan c B SBeg size F found k :
  first_block c B SBeg size F ->
  scan_outcome c B SBeg size found k ->
  found = true /\ SBeg + 512 * k = F.
Proof.
  intros (k0 & Hk0 & -> & Hlt0 & Hm0 & Hbefore0) (Hk & Hbefore & Hat).
  destruct (Z.lt_trichotomy k0 k) as [Hlt|[->|Hgt]].
  - destruct (Hbefore k0 ltac:(lia)) as [_ Hno]. congruence.
  - destruct found; [split; reflexivity|lia].
  - destruct found.
    + destruct Hat as [_ Hm]. specialize (Hbefore0 k ltac:(lia)). congruence.
    + lia.
Qed.

Lemma no_block_scan c B SBeg size found k :
  no_block c B SBeg size ->
  scan_outcome c B SBeg size found k ->
  found = false.
Proof.
  intros Hno (Hk & _ & Hat). destruct found; [|reflexivity].
  destruct Hat as [Hlt Hm]. rewrite (Hno k Hk Hlt) in Hm. discriminate.
Qed.

Lemma scan_outcome_not_found c B SBeg size k :
  scan_outcome c B SBeg size false k -> no_block c B SBeg size.
Proof.
  intros (Hk & Hbefore & Hat) i Hi Hlt.
  apply Hbefore. lia.
Qed.

Lemma candidate_reads_spec SBeg n p m :
  (p, m) ∈ candidate_reads SBeg n <->
  m = 2 /\ exists i, 0 <= i < n /\ p = SBeg + 512 * i.
Proof.
  unfold candidate_reads. rewrite list_elem_of_fmap. split.
  - intros (i & Heq & Hin). apply elem_of_seqZ in Hin.
    inversion Heq; subst. split; [reflexivity|]. exists i. split; [lia|reflexivity].
  - intros (-> & i & Hi & ->). exists i. split; [reflexivity|].
    apply elem_of_seqZ. lia.
Qed.

(** C8: on a stream that has not failed, [findCnfBlock] visits the
    candidates [SBeg], [SBeg+512], ... in order, reads exactly two bytes
    at each, returns the first one that carries [(B, 0x20)], gives up at
    the first candidate with [pos + 512 >= streamsize], and no byte it
    reads lies beyond [streamsize - 512]. *)
Theorem findCnfBlock_scan (B : byte) (SBeg streamsize : Z) (st : DecSt) :
  failbit (input st) = false ->
  stream_length (input st) < 2 ^ 63 ->
  streamsize <= stream_length (input st) ->
  0 <= SBeg -> SBeg + 512 < 2 ^ 64 ->
  exists (found : bool) (k : Z) (st' : DecSt),
    findCnfBlock B SBeg streamsize st = (Val (found, SBeg + 512 * k), st')
    /\ reads (input st')
       = reads (input st)
         ++ candidate_reads SBeg (if found then k + 1 else k)
    /\ scan_outcome (content (input st)) B SBeg streamsize found k
    /\ (forall p n,
          (p, n) ∈ candidate_reads SBeg (if found then k + 1 else k) ->
          n = 2 /\ p + n - 1 <= streamsize - 512)
    /\ content (input st') = content (input st)
    /\ failbit (input st') = false
    /\ self st' = self st.
Proof.
  destruct st as [[c p0 fb e log] f]. unfold stream_length. simpl.
  intros -> Hlen Hsize HS Hwrap.
  destruct (findCnfBlock_clean B SBeg streamsize c p0 e log f)
    as (found & k & p' & e' & Heq & Hout); try assumption.
  exists found, k. eexists. split; [exact Heq|]. simpl.
  split; [reflexivity|]. split; [exact Hout|].
  split; [|repeat split].
  intros p n Hin. apply candidate_reads_spec in Hin.
  destruct Hin as (-> & i & Hi & ->). split; [reflexivity|].
  destruct Hout as (Hk & Hbefore & Hat).
  destruct (Z.eq_dec i k) as [->|Hne].
  - destruct found; lia.
  - destruct (Hbefore i) as [Hlt _]; [destruct found; lia|lia].
Qed.

(** *** The channel count *)

Lemma byte_to_Z_bound b : 0 <= Int.byte_to_Z b < 256.
Proof.
  unfold Int.byte_to_Z. pose proof (Byte.to_N_bounded b). lia.
Qed.

Lemma le_to_Z_bound bs :
  0 <= Int.le_to_Z bs < 256 ^ Z.of_nat (length bs).
Proof.
  induction bs as [|b bs IH].
  - simpl. lia.
  - cbn [Int.le_to_Z length]. rewrite Nat2Z.inj_succ, Z.pow_succ_r by lia.
    pose proof (byte_to_Z_bound b). lia.
Qed.

Lemma le_to_Z_bytes_at c p n :
  0 <= p -> 0 <= n -> p + n <= Z.of_nat (length c) ->
  0 <= Int.le_to_Z (bytes_at c p n) < 256 ^ n.
Proof.
  intros Hp Hn Hle. pose proof (le_to_Z_bound (bytes_at c p n)) as H.
  rewrite length_bytes_at in H by assumption. exact H.
Qed.

Lemma isPowerOfTwo_spec n :
  0 <= n < 2 ^ 32 ->
  isPowerOfTwo n = true <-> exists k, 0 <= k /\ n = 2 ^ k.
Proof.
  intros Hn. unfold isPowerOfTwo. rewrite andb_true_iff, negb_true_iff.
  rewrite Z.eqb_neq, Z.eqb_eq. split.
  - intros [Hnz Hland].
    assert (Hu : Int.u32 (n - 1) = n - 1).
    { unfold Int.u32, Int.wrap. apply Z.mod_small. lia. }
    rewrite Hu in Hland.
    exists (Z.log2 n). split; [apply Z.log2_nonneg|].
    destruct (Z.log2_spec n ltac:(lia)) as [Hlo Hhi].
    destruct (Z.eq_dec n (2 ^ Z.log2 n)) as [Heq|Hne]; [exact Heq|exfalso].
    assert (Hlog : Z.log2 (n - 1) = Z.log2 n).
    { apply Z.log2_unique; [apply Z.log2_nonneg|]. lia. }
    assert (Hbit : Z.testbit (Z.land n (n - 1)) (Z.log2 n) = true).
    { rewrite Z.land_spec, Z.bit_log2 by lia.
      rewrite <- Hlog. rewrite Z.bit_log2; [reflexivity|].
      pose proof (Z.pow_pos_nonneg 2 (Z.log2 n) ltac:(lia)
                    (Z.log2_nonneg n)). lia. }
    rewrite Hland, Z.bits_0 in Hbit. discriminate.
  - intros (k & Hk & ->).
    pose proof (Z.pow_pos_nonneg 2 k ltac:(lia) Hk) as Hpos.
    split; [lia|].
    assert (Hu : Int.u32 (2 ^ k - 1) = 2 ^ k - 1).
    { unfold Int.u32, Int.wrap. apply Z.mod_small. lia. }
    rewrite Hu. replace (2 ^ k - 1) with (Z.ones k)
      by (rewrite Z.ones_equiv; lia).
    rewrite Z.land_ones by assumption. apply Z.mod_same. lia.
Qed.

Lemma invalid_num_channels_spec n :
  0 <= n < 2 ^ 32 ->
  invalid_num_channels n = true <->
  (64 <= n <= 65536 /\ ~ exists k, 0 <= k /\ n = 2 ^ k).
Proof.
  intros Hn. unfold invalid_num_channels.
  rewrite !andb_true_iff, negb_true_iff, !Z.leb_le.
  rewrite <- (isPowerOfTwo_spec n Hn).
  destruct (isPowerOfTwo n); intuition congruence.
Qed.

Lemma read_num_channels_clean o c p0 e log f :
  Z.of_nat (length c) < 2 ^ 63 ->
  0 <= num_channel_offset o ->
  num_channel_offset o + 4 <= Z.of_nat (length c) ->
  let n := Int.le_to_Z (bytes_at c (num_channel_offset o) 4) in
  let st' := clean c (num_channel_offset o + 4)
                   (log ++ [(num_channel_offset o, 4)]) f in
  read_num_channels o (mkDecSt (mkIstream c p0 false e log) f)
  = if invalid_num_channels n
    then (Exn (runtime_error "Invalid number of channels"), st')
    else (Val n, st').
Proof.
  intros Hlen Hoff Hend. unfold read_num_channels.
  unfold bind at 1. rewrite seekg_clean by lia.
  unfold bind at 1. rewrite read_binary_data_clean by lia.
  cbv zeta.
  now destruct (invalid_num_channels
                  (Int.le_to_Z (bytes_at c (num_channel_offset o) 4))).
Qed.

(** C4: the channel count [n] read at [num_channel_offset] makes the
    decode throw "Invalid number of channels" exactly when
    [64 <= n <= 65536] and [n] is not a power of two; every other value,
    zero and everything outside the range included, is returned as is. *)
Theorem num_channels_check (o : offsets) (st : DecSt) :
  failbit (input st) = false ->
  stream_length (input st) < 2 ^ 63 ->
  0 <= num_channel_offset o ->
  num_channel_offset o + 4 <= stream_length (input st) ->
  let n := Int.le_to_Z (bytes_at (content (input st))
                                 (num_channel_offset o) 4) in
  let rejected := 64 <= n <= 65536 /\ ~ exists k, 0 <= k /\ n = 2 ^ k in
  exists st',
    (rejected ->
     read_num_channels o st
     = (Exn (runtime_error "Invalid number of channels"), st'))
    /\ (~ rejected -> read_num_channels o st = (Val n, st'))
    /\ (n < 64 \/ 65536 < n -> read_num_channels o st = (Val n, st')).
Proof.
  destruct st as [[c p0 fb e log] f]. unfold stream_length. simpl.
  intros -> Hlen Hoff Hend.
  pose proof (le_to_Z_bytes_at c (num_channel_offset o) 4
                ltac:(lia) ltac:(lia) ltac:(lia)) as Hn.
  change (256 ^ 4) with (2 ^ 32) in Hn.
  pose proof (invalid_num_channels_spec _ Hn) as Hspec.
  rewrite read_num_channels_clean by assumption. cbv zeta.
  eexists.
  destruct (invalid_num_channels
              (Int.le_to_Z (bytes_at c (num_channel_offset o) 4))) eqn:Hinv.
  - split; [intros _; reflexivity|].
    split; [intros Hno; exfalso; apply Hno; now apply Hspec|].
    intros Hout. exfalso.
    destruct (proj1 Hspec eq_refl) as [Hrange _]. lia.
  - assert (Hno : ~ (64 <=
                     Int.le_to_Z (bytes_at c (num_channel_offset o) 4)
                     <= 65536
                     /\ ~ exists k, 0 <= k /\
                         Int.le_to_Z (bytes_at c (num_channel_offset o) 4)
                         = 2 ^ k)).
    { intros H. apply Hspec in H. discriminate. }
    split; [intros H; contradiction|].
    split; intros _; reflexivity.
Qed.

(** *** The word-swapped float *)

Lemma of_bits_le_bytes c0 c1 c2 c3 :
  F32.of_bits (Int.le_to_Z [c0; c1; c2; c3])
  = ieee754_single_of_bytes [c0; c1; c2; c3].
Proof.
  unfold F32.of_bits, ieee754_single_of_bytes. cbn [Int.le_to_Z].
  pose proof (byte_to_Z_bound c0) as H0.
  pose proof (byte_to_Z_bound c1) as H1.
  pose proof (byte_to_Z_bound c2) as H2.
  pose proof (byte_to_Z_bound c3) as H3.
  set (z0 := Int.byte_to_Z c0) in *. set (z1 := Int.byte_to_Z c1) in *.
  set (z2 := Int.byte_to_Z c2) in *. set (z3 := Int.byte_to_Z c3) in *.
  set (w := z0 + 256 * (z1 + 256 * (z2 + 256 * (z3 + 256 * 0)))).
  change (2 ^ 23) with 8388608. change (2 ^ 8) with 256.
  assert (Hs : Z.testbit w 31 = (128 <=? z3)).
  { subst w. destruct (Z.leb_spec 128 z3).
    - apply Z.testbit_true; [lia|]. change (2 ^ 31) with 2147483648.
      Z.div_mod_to_equations; lia.
    - apply Z.testbit_false; [lia|]. change (2 ^ 31) with 2147483648.
      Z.div_mod_to_equations; lia. }
  assert (He : (w / 8388608) mod 256 = 2 * (z3 mod 128) + z2 / 128).
  { subst w. Z.div_mod_to_equations; lia. }
  assert (Hm : w mod 8388608 = 65536 * (z2 mod 128) + 256 * z1 + z0).
  { subst w. Z.div_mod_to_equations; lia. }
  rewrite Hs, He, Hm.
  assert (Hf : 0 <= 65536 * (z2 mod 128) + 256 * z1 + z0 < 8388608).
  { Z.div_mod_to_equations; lia. }
  set (fraction := 65536 * (z2 mod 128) + 256 * z1 + z0) in *.
  destruct (2 * (z3 mod 128) + z2 / 128 =? 0).
  - destruct fraction as [|q|q] eqn:Hq; simpl; try reflexivity; lia.
  - destruct (2 * (z3 mod 128) + z2 / 128 =? 255).
    + destruct fraction as [|q|q] eqn:Hq; simpl; try reflexivity; lia.
    + rewrite (Z.add_comm fraction 8388608).
      destruct (8388608 + fraction) as [|q|q] eqn:Hq; simpl;
        try reflexivity; lia.
Qed.

Lemma readCnfFloat_clean c p log f b0 b1 b2 b3 :
  0 <= p -> bytes_at c p 4 = [b0; b1; b2; b3] ->
  readCnfFloat (clean c p log f)
  = (Val (cnf_float_of_Buf b0 b1 b2 b3),
     clean c (p + 4) (log ++ [(p, 4)]) f).
Proof.
  intros Hp Hb. unfold readCnfFloat, bind.
  assert (Hlen : p + 4 <= Z.of_nat (length c)).
  { apply (f_equal (@length byte)) in Hb. unfold bytes_at in Hb.
    rewrite length_take, length_drop in Hb.
    change (length [b0; b1; b2; b3]) with 4%nat in Hb. lia. }
  rewrite read_local_clean by lia. rewrite Hb. reflexivity.
Qed.


Lemma mul_quarter_exact s m e :
  Zpos (digits2_pos m) = 24 -> -147 <= e <= 104 ->
  F32.mul F32.quarter (S754_finite s m e) = S754_finite s m (e - 2).
Proof.
  intros Hd He. injection Hd as Hd.
  unfold F32.mul, F32.quarter, SFmul, binary_round_aux, shr_fexp.
  change (8388608 * m)%positive
    with (m~0~0~0~0~0~0~0~0~0~0~0~0~0~0~0~0~0~0~0~0~0~0~0)%positive.
  cbn [xorb Zdigits2 digits2_pos]. rewrite Hd.
  cbv [PosDef.Pos.succ].
  unfold fexp, emin, F32.prec, F32.emax.
  change (3 - 128 - 24) with (-149).
  replace (Z.max (47 + (-25 + e) - 24) (-149) - (-25 + e)) with 23
    by lia.
  cbn [shr shr_record_of_loc SpecFloat.iter_pos shr_1 orb loc_of_shr_record
       round_nearest_even shr_m shr_r shr_s fst snd Zdigits2].
  rewrite Hd.
  replace (Z.max (24 + (-25 + e + 23) - 24) (-149) - (-25 + e + 23)) with 0
    by lia.
  cbn [shr shr_record_of_loc shr_m].
  replace (-25 + e + 23) with (e - 2) by lia.
  destruct (Z.leb_spec (e - 2) (128 - 24)); [reflexivity|lia].
Qed.

Lemma readCnfFloat_at c p log f :
  0 <= p -> p + 4 <= Z.of_nat (length c) ->
  readCnfFloat (clean c p log f)
  = (Val (cnf_float_at c p), clean c (p + 4) (log ++ [(p, 4)]) f).
Proof.
  intros Hp Hle.
  destruct (four_bytes (bytes_at c p 4)) as (b0 & b1 & b2 & b3 & Hb);
    [apply length_bytes_at; lia|].
  rewrite (readCnfFloat_clean _ _ _ _ b0 b1 b2 b3) by assumption.
  unfold cnf_float_at, cnf_float_of_Buf. rewrite Hb. cbn [word_swap].
  rewrite of_bits_le_bytes. reflexivity.
Qed.

(** *** Stepping through straight-line code on a clean stream *)

Ltac norm_pos :=
  rewrite <- ?Z.add_assoc;
  cbn [Z.add Pos.add Pos.succ Pos.add_carry].

Ltac step_seekg :=
  unfold bind at 1; try unfold clean; rewrite seekg_clean by lia.

Ltac step_u32 :=
  unfold bind at 1; rewrite read_binary_data_clean by lia; norm_pos.

Ltac step_float :=
  unfold bind at 1; rewrite readCnfFloat_at by lia; norm_pos.

Ltac step_buff :=
  unfold bind at 1; rewrite read_local_clean by lia; norm_pos.

(** *** Start time, real time and live time *)

Lemma read_times_clean o meas c p0 e log f :
  Z.of_nat (length c) < 2 ^ 63 ->
  0 <= record_offset o ->
  record_offset o + 24 <= Z.of_nat (length c) ->
  let r := record_offset o in
  read_times o meas (mkDecSt (mkIstream c p0 false e log) f)
  = (Val (with_live_time
            (cnf_duration (u32_at c (r + 16)) (u32_at c (r + 20)))
            (with_real_time
               (cnf_duration (u32_at c (r + 8)) (u32_at c (r + 12)))
               (with_start_time
                  (cnf_start_time (u32_at c r) (u32_at c (r + 4)))
                  meas))),
     clean c (r + 24)
       (log ++ [(r, 4); (r + 4, 4); (r + 8, 4); (r + 12, 4); (r + 16, 4);
                (r + 20, 4)])
       f).
Proof.
  intros Hlen Hr Hend r. subst r. unfold read_times, u32_at.
  step_seekg. do 6 step_u32.
  rewrite <- !app_assoc. reflexivity.
Qed.


(** *** The energy calibration *)

Lemma read_calibration_clean o n meas c p0 e log f :
  Z.of_nat (length c) < 2 ^ 63 ->
  0 <= energy_calib_offset o ->
  energy_calib_offset o + 12 <= Z.of_nat (length c) ->
  let q := energy_calib_offset o in
  let coeffs :=
    [cnf_float_at c q; cnf_float_at c (q + 4); cnf_float_at c (q + 8)] in
  read_calibration o n meas (mkDecSt (mkIstream c p0 false e log) f)
  = settle_calibration (calibration_is_valid Polynomial coeffs [] n)
      coeffs meas
      (clean c (q + 12) (log ++ [(q, 4); (q + 4, 4); (q + 8, 4)]) f).
Proof.
  intros Hlen Hq Hend q coeffs. subst q coeffs. unfold read_calibration.
  step_seekg. do 3 step_float.
  rewrite <- !app_assoc. reflexivity.
Qed.


(** *** The channel data *)

Lemma read_some_any c p log f n :
  let got := bytes_at c p n in
  let short := Z.of_nat (length got) <? n in
  read_some n (clean c p log f)
  = (Val got,
     mkDecSt (mkIstream c (p + Z.of_nat (length got)) short short
                        (log ++ [(p, n)])) f).
Proof. reflexivity. Qed.

Lemma vec_store_state {A} idx (v : A) l st :
  snd (vec_store idx v l st) = st.
Proof. unfold vec_store. now destruct (_ && _). Qed.

Lemma finish_channel_data_state channeldata meas st :
  snd (finish_channel_data channeldata meas st) = st.
Proof.
  unfold finish_channel_data, bind.
  pose proof (vec_store_state 1 0 channeldata st) as H1.
  destruct (vec_store 1 0 channeldata st) as [[l1| |] st1]; simpl in H1;
    subst; try reflexivity.
  pose proof (vec_store_state 0 0 l1 st) as H2.
  destruct (vec_store 0 0 l1 st) as [[l2| |] st2]; simpl in H2;
    subst; reflexivity.
Qed.

Lemma u32_bound x : 0 <= Int.u32 x < 2 ^ 32.
Proof. unfold Int.u32, Int.wrap. apply Z.mod_pos_bound. lia. Qed.

(** The state in which [read_channel_data] performs its one bulk read,
    and what is left to do after it. *)
Lemma read_channel_data_run size n meas c p0 e log f F :
  size <= Z.of_nat (length c) -> Z.of_nat (length c) < 2 ^ 63 ->
  first_block c x05 0 size F ->
  F + 512 + Int.u32 (4 * n) <= size ->
  exists (found : bool) (k : Z) (log' : list (Z * Z)),
    scan_outcome c x05 (F + 512) size found k
    /\ let start := if found then F + 512 + 512 * k + 512 else F + 512 in
       let got := bytes_at c start (Int.u32 (4 * n)) in
       let short := Z.of_nat (length got) <? Int.u32 (4 * n) in
       read_channel_data size n meas
         (mkDecSt (mkIstream c p0 false e log) f)
       = finish_channel_data (channeldata_after_read n got) meas
           (mkDecSt (mkIstream c (start + Z.of_nat (length got)) short short
                               (log' ++ [(start, Int.u32 (4 * n))])) f).
Proof.
  intros Hsize Hlen Hfirst Hcheck.
  pose proof (u32_bound (4 * n)) as Hcnt.
  assert (HF : 0 <= F /\ F + 512 < size).
  { destruct Hfirst as (k & Hk & -> & Hlt & _). lia. }
  unfold read_channel_data.
  destruct (findCnfBlock_clean x05 0 size c p0 e log f)
    as (found1 & k1 & p1 & e1 & Heq1 & Hout1); try lia.
  destruct (first_block_scan _ _ _ _ _ _ _ Hfirst Hout1) as [-> HF1].
  unfold bind at 1. rewrite Heq1, HF1. cbn [negb].
  rewrite (usize_small (F + 512)) by lia.
  destruct (findCnfBlock_clean x05 (F + 512) size c p1 e1
              (log ++ candidate_reads 0 (k1 + 1)) f)
    as (found & k & p2 & e2 & Heq2 & Hout2); try lia.
  unfold bind at 1. rewrite Heq2.
  exists found, k.
  exists ((log ++ candidate_reads 0 (k1 + 1))
          ++ candidate_reads (F + 512) (if found then k + 1 else k)).
  split; [exact Hout2|]. cbv zeta.
  rewrite (usize_small (F + 512 + Int.u32 (4 * n))) by lia.
  destruct found.
  - destruct Hout2 as (Hk & _ & Hlt & _).
    rewrite (usize_small (F + 512 + 512 * k + 512)) by lia.
    step_seekg.
    destruct (Z.ltb_spec size (F + 512 + Int.u32 (4 * n))); [lia|].
    unfold bind at 1. rewrite read_some_any. reflexivity.
  - step_seekg.
    destruct (Z.ltb_spec size (F + 512 + Int.u32 (4 * n))); [lia|].
    unfold bind at 1. rewrite read_some_any. reflexivity.
Qed.

(** C1 (as the code has it): once a first [0x05] block is found at [F]
    and the size check passes, the channel array is read in one piece of
    [4 * num_channels] bytes (reduced to [uint32_t]); it starts at
    [F + 512] when no further [0x05] block follows, and at [S + 512] when
    the scan from [F + 512] finds one at [S]. *)
Theorem channel_array_start (size n : Z) (meas : Measurement) (st : DecSt)
    (F : Z) :
  failbit (input st) = false ->
  size <= stream_length (input st) ->
  stream_length (input st) < 2 ^ 63 ->
  first_block (content (input st)) x05 0 size F ->
  F + 512 + Int.u32 (4 * n) <= size ->
  exists r st',
    read_channel_data size n meas st = (r, st')
    /\ (no_block (content (input st)) x05 (F + 512) size ->
        last (reads (input st')) = Some (F + 512, Int.u32 (4 * n)))
    /\ (forall S,
          first_block (content (input st)) x05 (F + 512) size S ->
          last (reads (input st')) = Some (S + 512, Int.u32 (4 * n))).
Proof.
  destruct st as [[c p0 fb e log] f]. unfold stream_length. simpl.
  intros -> Hsize Hlen Hfirst Hcheck.
  destruct (read_channel_data_run size n meas c p0 e log f F)
    as (found & k & log' & Hout & Heq); try assumption.
  cbv zeta in Heq. rewrite Heq.
  match goal with
  | |- context [finish_channel_data ?l ?m ?s] =>
      pose proof (finish_channel_data_state l m s) as Hst;
      destruct (finish_channel_data l m s) as [r st']
  end.
  simpl in Hst. subst st'. exists r. eexists. split; [reflexivity|].
  cbn [input reads]. rewrite last_snoc. split.
  - intros Hno. rewrite (no_block_scan _ _ _ _ _ _ Hno Hout). reflexivity.
  - intros S HS.
    destruct (first_block_scan _ _ _ _ _ _ _ HS Hout) as [-> <-].
    reflexivity.
Qed.

(** X20: when no second block is found the size check covers the bulk
    read: it stays inside [size] and leaves [failbit] clear. *)
Lemma single_block_read_in_bounds size n meas c p0 e log f F :
  size <= Z.of_nat (length c) -> Z.of_nat (length c) < 2 ^ 63 ->
  first_block c x05 0 size F ->
  no_block c x05 (F + 512) size ->
  forall r st',
    read_channel_data size n meas (mkDecSt (mkIstream c p0 false e log) f)
    = (r, st') ->
    (exists what, r = Exn (runtime_error what))
    \/ (exists start cnt,
          last (reads (input st')) = Some (start, cnt)
          /\ start + cnt <= size
          /\ failbit (input st') = false).
Proof.
  intros Hsize Hlen Hfirst Hno r st' Hrun.
  assert (HF : 0 <= F /\ F + 512 < size).
  { destruct Hfirst as (k & Hk & -> & Hlt & _). lia. }
  pose proof (u32_bound (4 * n)) as Hcnt.
  destruct (Z.le_gt_cases (F + 512 + Int.u32 (4 * n)) size) as [Hok|Hbad].
  - right.
    destruct (read_channel_data_run size n meas c p0 e log f F)
      as (found & k & log' & Hout & Heq); try assumption.
    rewrite (no_block_scan _ _ _ _ _ _ Hno Hout) in Heq.
    cbv zeta in Heq. rewrite Heq in Hrun.
    match type of Hrun with
    | finish_channel_data ?l ?m ?s = _ =>
        pose proof (finish_channel_data_state l m s) as Hst
    end.
    rewrite Hrun in Hst. simpl in Hst. subst st'.
    exists (F + 512), (Int.u32 (4 * n)). cbn [input reads failbit].
    rewrite last_snoc. split; [reflexivity|]. split; [lia|].
    rewrite length_bytes_at by lia. apply Z.ltb_irrefl.
  - left. unfold read_channel_data in Hrun.
    destruct (findCnfBlock_clean x05 0 size c p0 e log f)
      as (found1 & k1 & p1 & e1 & Heq1 & Hout1); try lia.
    destruct (first_block_scan _ _ _ _ _ _ _ Hfirst Hout1) as [-> HF1].
    unfold bind at 1 in Hrun. rewrite Heq1, HF1 in Hrun. cbn [negb] in Hrun.
    rewrite (usize_small (F + 512)) in Hrun by lia.
    destruct (findCnfBlock_clean x05 (F + 512) size c p1 e1
                (log ++ candidate_reads 0 (k1 + 1)) f)
      as (found & k & p2 & e2 & Heq2 & Hout2); try lia.
    unfold bind at 1 in Hrun. rewrite Heq2 in Hrun.
    rewrite (no_block_scan _ _ _ _ _ _ Hno Hout2) in Hrun.
    rewrite (usize_small (F + 512 + Int.u32 (4 * n))) in Hrun by lia.
    unfold bind at 1 in Hrun. rewrite seekg_clean in Hrun by lia.
    destruct (Z.ltb_spec size (F + 512 + Int.u32 (4 * n))); [|lia].
    unfold throw in Hrun. inversion Hrun. eauto.
Qed.

(** X21: when a second block is found at [S] the same check does not
    cover the bulk read, which starts at [S + 512]: a stream that ends before
    [S + 512 + 4 * num_channels] passes the check, and the read runs out
    of bytes. *)
Lemma second_block_read_unchecked size n meas c p0 e log f F S :
  size <= Z.of_nat (length c) -> Z.of_nat (length c) < 2 ^ 63 ->
  first_block c x05 0 size F ->
  first_block c x05 (F + 512) size S ->
  F + 512 + Int.u32 (4 * n) <= size ->
  Z.of_nat (length c) < S + 512 + Int.u32 (4 * n) ->
  exists r st',
    read_channel_data size n meas (mkDecSt (mkIstream c p0 false e log) f)
    = (r, st')
    /\ (forall what, r <> Exn (runtime_error what))
    /\ last (reads (input st')) = Some (S + 512, Int.u32 (4 * n))
    /\ failbit (input st') = true.
Proof.
  intros Hsize Hlen Hfirst Hsecond Hcheck Hshort.
  destruct (read_channel_data_run size n meas c p0 e log f F)
    as (found & k & log' & Hout & Heq); try assumption.
  destruct (first_block_scan _ _ _ _ _ _ _ Hsecond Hout) as [-> HS].
  cbv zeta in Heq. rewrite HS in Heq. rewrite Heq.
  match goal with
  | |- context [finish_channel_data ?l ?m ?s] =>
      pose proof (finish_channel_data_state l m s) as Hst;
      assert (Hr : forall what,
                 fst (finish_channel_data l m s) <> Exn (runtime_error what));
      [|destruct (finish_channel_data l m s) as [r st']]
  end.
  { intros what. unfold finish_channel_data, bind, vec_store.
    repeat (destruct (_ && _); cbn [fst ret abort]); discriminate. }
  simpl in Hst. subst st'. exists r. eexists. split; [reflexivity|].
  split; [exact Hr|]. cbn [input reads failbit]. rewrite last_snoc.
  split; [reflexivity|].
  apply Z.ltb_lt. unfold bytes_at. rewrite length_take, length_drop.
  pose proof (u32_bound (4 * n)) as Hcnt.
  destruct Hsecond as (k' & Hk' & -> & Hlt' & _).
  destruct Hfirst as (k0 & Hk0 & -> & _). lia.
Qed.

Lemma le_words_length fuel : forall bs,
  (4 * fuel <= length bs)%nat -> length (Int.le_words fuel bs) = fuel.
Proof.
  induction fuel as [|fuel IH]; intros bs Hlen; [reflexivity|].
  destruct bs as [|b0 [|b1 [|b2 [|b3 rest]]]]; simpl in Hlen; try lia.
  cbn [Int.le_words length]. rewrite IH; [reflexivity|lia].
Qed.

Lemma channeldata_after_read_length n got :
  0 <= n -> Z.of_nat (length got) <= 4 * n ->
  Z.of_nat (length (channeldata_after_read n got)) = n.
Proof.
  intros Hn Hgot. unfold channeldata_after_read.
  rewrite le_words_length; [lia|].
  rewrite length_app, length_replicate. lia.
Qed.

(** The two stores of line 412 need a vector of at least two entries. *)
Lemma finish_channel_data_short (l : list Z) meas st :
  Z.of_nat (length l) < 2 ->
  finish_channel_data l meas st
  = (Stuck (OutOfBounds (Z.of_nat (length l)) 1), st).
Proof.
  intros Hl. unfold finish_channel_data, bind, vec_store.
  destruct (Z.ltb_spec 1 (Z.of_nat (length l))); [lia|]. reflexivity.
Qed.

Lemma finish_channel_data_ok (l : list Z) meas st :
  2 <= Z.of_nat (length l) ->
  exists meas', finish_channel_data l meas st = (Val meas', st)
    /\ exists counts, gamma_counts_ meas' = Some counts
        /\ counts !! 0%nat = Some F32.zero
        /\ counts !! 1%nat = Some F32.zero
        /\ length counts = length l.
Proof.
  intros Hl. destruct l as [|x0 [|x1 l]]; simpl in Hl; try lia.
  unfold finish_channel_data, bind, vec_store.
  assert (H1 : (0 <=? 1) && (1 <? Z.of_nat (length (x0 :: x1 :: l))) = true).
  { apply andb_true_iff. split; [reflexivity|].
    apply Z.ltb_lt. cbn [length]. lia. }
  rewrite H1. unfold ret at 1.
  change (<[Z.to_nat 1:=0]> (x0 :: x1 :: l)) with (x0 :: 0 :: l).
  assert (H0 : (0 <=? 0) && (0 <? Z.of_nat (length (x0 :: 0 :: l))) = true).
  { apply andb_true_iff. split; [reflexivity|].
    apply Z.ltb_lt. cbn [length]. lia. }
  rewrite H0. unfold ret.
  change (<[Z.to_nat 0:=0]> (x0 :: 0 :: l)) with (0 :: 0 :: l).
  eexists. split; [reflexivity|]. cbn [gamma_counts_ with_gamma].
  eexists. split; [reflexivity|].
  repeat split. simpl. now rewrite length_map.
Qed.

(** *** The parse alters neither the stream's bytes nor the host's
    measurements *)

Lemma keeps_ret {A} (a : A) : keeps_content (ret a).
Proof. intros st. split; reflexivity. Qed.

Lemma keeps_throw {A} e : keeps_content (@throw DecSt A e).
Proof. intros st. split; reflexivity. Qed.

Lemma keeps_abort {A} u : keeps_content (@abort DecSt A u).
Proof. intros st. split; reflexivity. Qed.

Lemma keeps_bind {A B} (m : M DecSt A) (k : A -> M DecSt B) :
  keeps_content m -> (forall a, keeps_content (k a)) ->
  keeps_content (bind m k).
Proof.
  intros Hm Hk st. unfold bind. specialize (Hm st).
  destruct (m st) as [[a| |] st1]; simpl in *; try assumption.
  destruct (Hk a st1) as [Hc Hh]. destruct Hm as [Hc' Hh'].
  split; congruence.
Qed.

Lemma keeps_on_self g :
  (forall f, measurements_ (g f) = measurements_ f) ->
  keeps_content (on_self g).
Proof. intros Hg st. split; [reflexivity|apply Hg]. Qed.

Lemma keeps_on_input g :
  (forall s, content (g s) = content s) -> keeps_content (on_input g).
Proof. intros Hg st. split; [apply Hg|reflexivity]. Qed.

Lemma content_seekg p s : content (istream_seekg p s) = content s.
Proof.
  unfold istream_seekg. destruct (failbit s); [reflexivity|].
  now destruct (_ && _).
Qed.

Lemma content_seekg_end s : content (istream_seekg_end s) = content s.
Proof. unfold istream_seekg_end. now destruct (failbit s). Qed.

Lemma content_clear s : content (istream_clear s) = content s.
Proof. reflexivity. Qed.

Lemma keeps_seekg p : keeps_content (seekg p).
Proof. apply keeps_on_input. intros s. apply content_seekg. Qed.

Lemma keeps_tellg : keeps_content tellg.
Proof.
  intros st. unfold tellg, istream_tellg.
  destruct (istream_good (input st)); split; reflexivity.
Qed.

Lemma keeps_read_some n : keeps_content (read_some n).
Proof.
  intros st. unfold read_some, istream_read.
  destruct (istream_good (input st)); split; reflexivity.
Qed.

Lemma keeps_push_remark r : keeps_content (on_self (push_remark r)).
Proof. apply keeps_on_self. reflexivity. Qed.

Lemma keeps_set_instrument d ty manu model :
  keeps_content (on_self (set_instrument d ty manu model)).
Proof. apply keeps_on_self. reflexivity. Qed.

Create HintDb keeps.

#[local] Hint Resolve keeps_ret keeps_throw keeps_abort keeps_push_remark
  keeps_set_instrument keeps_seekg keeps_tellg keeps_read_some : keeps.
#[local] Hint Extern 1 (keeps_content (on_input _)) =>
  apply keeps_on_input; intros;
  first [apply content_seekg | apply content_seekg_end | apply content_clear]
  : keeps.

Ltac keeps :=
  repeat match goal with
    | |- keeps_content (bind _ _) => apply keeps_bind; [|intros]
    | |- keeps_content (if ?b then _ else _) => destruct b
    | |- keeps_content (match ?x with _ => _ end) => destruct x
    | |- keeps_content _ => solve [eauto with keeps]
    end.

Lemma keeps_read_local n : keeps_content (read_local n).
Proof. unfold read_local. keeps. Qed.

#[local] Hint Resolve keeps_read_local : keeps.

Lemma keeps_read_binary_data n : keeps_content (read_binary_data n).
Proof. unfold read_binary_data. keeps. Qed.

#[local] Hint Resolve keeps_read_binary_data : keeps.

Lemma keeps_findCnfBlock_loop fuel :
  forall B pos size, keeps_content (findCnfBlock_loop fuel B pos size).
Proof.
  induction fuel as [|fuel IH]; intros B pos size; simpl; keeps.
Qed.

Lemma keeps_findCnfBlock B SBeg size :
  keeps_content (findCnfBlock B SBeg size).
Proof. apply keeps_findCnfBlock_loop. Qed.

#[local] Hint Resolve keeps_findCnfBlock : keeps.

Lemma keeps_readCnfFloat : keeps_content readCnfFloat.
Proof. unfold readCnfFloat. keeps. Qed.

#[local] Hint Resolve keeps_readCnfFloat : keeps.

Lemma keeps_vec_store {A} idx (v : A) l : keeps_content (vec_store idx v l).
Proof. unfold vec_store. keeps. Qed.

#[local] Hint Resolve keeps_vec_store : keeps.

Lemma keeps_read_title_block size meas :
  keeps_content (read_title_block size meas).
Proof. unfold read_title_block. keeps. Qed.

Lemma keeps_locate_header size : keeps_content (locate_header size).
Proof. unfold locate_header. keeps. Qed.

Lemma keeps_read_times o meas : keeps_content (read_times o meas).
Proof. unfold read_times. keeps. Qed.

Lemma keeps_read_num_channels o : keeps_content (read_num_channels o).
Proof. unfold read_num_channels. keeps. Qed.

Lemma keeps_read_calibration o n meas :
  keeps_content (read_calibration o n meas).
Proof. unfold read_calibration, settle_calibration. keeps. Qed.

Lemma keeps_read_instrument o meas :
  keeps_content (read_instrument o meas).
Proof. unfold read_instrument. keeps. Qed.

Lemma keeps_read_channel_data size n meas :
  keeps_content (read_channel_data size n meas).
Proof. unfold read_channel_data, finish_channel_data. keeps. Qed.

#[local] Hint Resolve keeps_read_title_block keeps_locate_header
  keeps_read_times keeps_read_num_channels keeps_read_calibration
  keeps_read_instrument keeps_read_channel_data : keeps.

Lemma keeps_open_header orig_pos : keeps_content (open_header orig_pos).
Proof. unfold open_header. keeps. Qed.

#[local] Hint Resolve keeps_open_header : keeps.

Lemma keeps_read_header orig_pos : keeps_content (read_header orig_pos).
Proof. unfold read_header. keeps. Qed.

#[local] Hint Resolve keeps_read_header : keeps.

(** The measurement is pushed by the last statement of the [try] block:
    the block keeps the bytes in any case, and the host's measurements
    unless it runs to completion. *)
Lemma load_from_cnf_try_keeps orig_pos st :
  content (input (snd (load_from_cnf_try orig_pos st))) = content (input st)
  /\ (forall u, fst (load_from_cnf_try orig_pos st) <> Val u ->
      measurements_ (self (snd (load_from_cnf_try orig_pos st)))
      = measurements_ (self st)).
Proof.
  unfold load_from_cnf_try, bind.
  pose proof (keeps_read_header orig_pos st) as [Hc1 Hm1].
  destruct (read_header orig_pos st) as [[[[size n] meas]|e|u] st1];
    cbn [fst snd] in *; try (split; [assumption|intros; assumption]).
  pose proof (keeps_read_channel_data size n meas st1) as [Hc2 Hm2].
  destruct (read_channel_data size n meas st1) as [[meas'|e|u] st2];
    cbn [fst snd] in *;
    try (split; [congruence|intros; congruence]).
  split; [simpl; congruence|].
  intros u Hu. exfalso. apply Hu. destruct u. reflexivity.
Qed.

(** *** Failure of the decode *)

Lemma load_from_cnf_unfold st :
  load_from_cnf st
  = let st1 := mkDecSt (input st) (reset (self st)) in
    let orig_pos := gpos (input st) in
    if negb (istream_good (input st)) then (Val false, st1)
    else
      match load_from_cnf_try orig_pos st1 with
      | (Val _, st2) =>
          (Val true, mkDecSt (input st2) (cleanup_after_load (self st2)))
      | (Exn _, st2) =>
          (Val false,
           mkDecSt (istream_seekg orig_pos (istream_clear (input st2)))
                   (reset (self st2)))
      | (Stuck u, st2) => (Stuck u, st2)
      end.
Proof.
  destruct st as [[c p fb e log] f].
  destruct fb, e;
    cbv [load_from_cnf load_from_cnf_catch bind on_self on_input modify get
         tellg try_catch ret input self istream_tellg gpos istream_good
         negb andb failbit eofbit];
    try reflexivity.
  destruct (load_from_cnf_try p
              (mkDecSt (mkIstream c p false false log) (reset f)))
    as [[[]|ex|u] st2]; reflexivity.
Qed.

(** C3 (as the code has it): [load_from_cnf] never lets an exception
    escape, and whenever it returns [false] the stream is back at the
    position it had at entry and the host object is in the state
    [reset()] produces: either [reset()] of what it held before the call
    (the stream was not good), or [reset()] of an object to which the
    parse added no measurement beyond those the first [reset()] left.
    With a [reset()] that empties the measurement collection, the host
    holds no measurement. *)
Theorem load_from_cnf_failure (st : DecSt) :
  wf_stream (input st) ->
  (forall e, fst (load_from_cnf st) <> Exn e)
  /\ (fst (load_from_cnf st) = Val false ->
      let st' := snd (load_from_cnf st) in
      gpos (input st') = gpos (input st)
      /\ content (input st') = content (input st)
      /\ (exists f,
            self st' = reset f
            /\ (f = self st
                \/ measurements_ f = measurements_ (reset (self st))))
      /\ ((forall f, measurements_ (reset f) = []) ->
          measurements_ (self st') = [])).
Proof.
  intros [Hpos Hlen]. rewrite load_from_cnf_unfold. cbv zeta.
  destruct (istream_good (input st)) eqn:Hgood; cbn [negb].
  2:{ split; [discriminate|]. intros _. cbn [snd input self].
      split; [reflexivity|]. split; [reflexivity|]. split.
      - exists (self st). split; [reflexivity|now left].
      - intros Hreset. apply Hreset. }
  pose proof (load_from_cnf_try_keeps (gpos (input st))
                (mkDecSt (input st) (reset (self st)))) as [Hkeep Hheld].
  destruct (load_from_cnf_try (gpos (input st))
              (mkDecSt (input st) (reset (self st))))
    as [[[]|e|u] st2]; cbn [fst snd input self] in *.
  - split; [discriminate|]. intros H. discriminate.
  - split; [discriminate|]. intros _.
    unfold istream_seekg, istream_clear, stream_length in *.
    cbn [failbit content gpos]. rewrite Hkeep.
    destruct (Z.leb_spec 0 (gpos (input st))); [|lia].
    destruct (Z.leb_spec (gpos (input st))
                (Z.of_nat (length (content (input st))))); [|lia].
    cbn [andb gpos content].
    split; [reflexivity|]. split; [reflexivity|]. split.
    + exists (self st2). split; [reflexivity|]. right.
      apply (Hheld tt). discriminate.
    + intros Hreset. apply Hreset.
  - split; [discriminate|]. intros H. discriminate.
Qed.

(** *** The header parser stays inside the stream *)

Lemma read_title_block_clean size meas c p0 e log f :
  size <= Z.of_nat (length c) -> Z.of_nat (length c) < 2 ^ 63 ->
  exists meas' p' e' log',
    read_title_block size meas (mkDecSt (mkIstream c p0 false e log) f)
    = (Val meas', mkDecSt (mkIstream c p' false e' log') f).
Proof.
  intros Hsize Hlen. unfold read_title_block.
  destruct (findCnfBlock_clean x01 0 size c p0 e log f)
    as (found & k & p1 & e1 & Heq & Hk & _ & Hat); try lia.
  unfold bind at 1. rewrite Heq.
  destruct found.
  - destruct Hat as [Hlt _].
    rewrite usize_small by lia.
    step_seekg. step_buff. step_buff. unfold clean.
    destruct (nonempty _); unfold ret; eauto.
  - unfold ret. eauto.
Qed.

Lemma offsets_in_range_intro SPos w34 w36 size :
  0 <= SPos -> SPos + 512 < size -> size < 2 ^ 63 ->
  0 <= w34 < 2 ^ 16 -> 0 <= w36 < 2 ^ 16 ->
  offsets_out_of_range (header_offsets SPos w34 w36) size = false ->
  offsets_in_range (header_offsets SPos w34 w36) size.
Proof.
  intros HS Hlt Hsize H34 H36 Hchk.
  unfold offsets_out_of_range in Hchk.
  repeat (apply orb_false_iff in Hchk as [Hchk ?]).
  unfold header_offsets in *.
  cbn [record_offset num_channel_offset energy_calib_offset mca_offset
       instrument_offset generic_detector_offset specific_detector_offset
       serial_num_offset] in *.
  repeat match goal with
         | H : (_ <? _) = false |- _ => apply Z.ltb_ge in H
         end.
  rewrite ?(usize_small (SPos + w36 + 48 + 1)) in * by lia.
  rewrite ?(usize_small (SPos + 48 + 137)) in * by lia.
  rewrite ?(usize_small (SPos + w34 + 48 + 68)) in * by lia.
  rewrite ?(usize_small (SPos + w34 + 48 + 156)) in * by lia.
  rewrite ?(usize_small (SPos + w34 + 48 + 1)) in * by lia.
  rewrite ?(usize_small (SPos + w34 + 48 + 732)) in * by lia.
  rewrite ?(usize_small (SPos + w36 + 48 + 1 + 24)) in * by lia.
  rewrite ?(usize_small (SPos + 48 + 137 + 4)) in * by lia.
  rewrite ?(usize_small (SPos + w34 + 48 + 68 + 12)) in * by lia.
  rewrite ?(usize_small (SPos + w34 + 48 + 156 + 8)) in * by lia.
  rewrite ?(usize_small (SPos + w34 + 48 + 1 + 31)) in * by lia.
  rewrite ?(usize_small (SPos + w34 + 48 + 732 + 8)) in * by lia.
  unfold offsets_in_range.
  cbn [record_offset num_channel_offset energy_calib_offset mca_offset
       instrument_offset generic_detector_offset].
  rewrite ?(usize_small (SPos + w36 + 48 + 1)) by lia.
  rewrite ?(usize_small (SPos + 48 + 137)) by lia.
  rewrite ?(usize_small (SPos + w34 + 48 + 68)) by lia.
  rewrite ?(usize_small (SPos + w34 + 48 + 156)) by lia.
  rewrite ?(usize_small (SPos + w34 + 48 + 1)) by lia.
  rewrite ?(usize_small (SPos + w34 + 48 + 732)) by lia.
  lia.
Qed.

Lemma locate_header_clean size c p0 e log f :
  size <= Z.of_nat (length c) -> Z.of_nat (length c) < 2 ^ 63 ->
  exists r p' e' log',
    locate_header size (mkDecSt (mkIstream c p0 false e log) f)
    = (r, mkDecSt (mkIstream c p' false e' log') f)
    /\ match r with
       | Val o => offsets_in_range o size
       | Exn _ => True
       | Stuck _ => False
       end.
Proof.
  intros Hsize Hlen. unfold locate_header.
  destruct (findCnfBlock_clean x00 0 size c p0 e log f)
    as (found & k & p1 & e1 & Heq & Hk & _ & Hat); try lia.
  unfold bind at 1. rewrite Heq.
  destruct found; cbn [negb].
  - destruct Hat as [Hlt _].
    rewrite usize_small by lia.
    step_seekg. step_u32. step_u32.
    pose proof (le_to_Z_bytes_at c (0 + (512 * k + 34)) 2
                  ltac:(lia) ltac:(lia) ltac:(lia)) as H34.
    pose proof (le_to_Z_bytes_at c (0 + (512 * k + 36)) 2
                  ltac:(lia) ltac:(lia) ltac:(lia)) as H36.
    change (256 ^ 2) with (2 ^ 16) in *.
    destruct (offsets_out_of_range _ size) eqn:Hchk.
    + unfold throw, clean. do 4 eexists. split; [reflexivity|exact I].
    + unfold ret, clean. do 4 eexists. split; [reflexivity|].
      apply offsets_in_range_intro; try assumption; lia.
  - unfold throw. do 4 eexists. split; [reflexivity|exact I].
Qed.

Lemma read_instrument_clean o meas size c p0 e log f :
  size <= Z.of_nat (length c) -> Z.of_nat (length c) < 2 ^ 63 ->
  offsets_in_range o size ->
  exists meas' p' log' f',
    read_instrument o meas (mkDecSt (mkIstream c p0 false e log) f)
    = (Val meas', clean c p' log' f').
Proof.
  intros Hsize Hlen (_ & _ & _ & Hmca & Hins & Hgen).
  unfold read_instrument.
  step_seekg. step_buff.
  destruct (nonempty _).
  - unfold bind at 1, on_self, modify. cbv beta iota.
    simpl (input (clean _ _ _ _)). simpl (self (clean _ _ _ _)).
    step_seekg. step_buff. step_seekg. step_buff.
    destruct (_ && _).
    + unfold bind, ret. do 4 eexists. unfold clean. reflexivity.
    + unfold bind, ret. do 4 eexists. reflexivity.
  - unfold bind at 1, ret at 1.
    step_seekg. step_buff. step_seekg. step_buff.
    destruct (_ && _).
    + unfold bind, on_self, modify, ret.
      do 4 eexists. unfold clean. reflexivity.
    + unfold bind, ret. do 4 eexists. reflexivity.
Qed.

Lemma settle_calibration_state valid coeffs meas st :
  exists r, settle_calibration valid coeffs meas st = (r, st)
            /\ forall u, r <> Stuck u.
Proof.
  unfold settle_calibration. destruct valid; cbn [negb].
  - eexists. split; [reflexivity|discriminate].
  - destruct (forallb F32.is_zero coeffs); cbn [negb];
      eexists; (split; [reflexivity|discriminate]).
Qed.

(** On a good, well-formed stream [open_header] reads inside the stream
    only; when it returns, [size] is the number of bytes from the entry
    position to the end and every header field lies inside it. *)
Lemma open_header_safe c p log f :
  0 <= p <= Z.of_nat (length c) -> Z.of_nat (length c) < 2 ^ 63 ->
  exists r p' e' log',
    open_header p (clean c p log f)
    = (r, mkDecSt (mkIstream c p' false e' log') f)
    /\ match r with
       | Val (size, o, meas) =>
           size = Z.of_nat (length c) - p /\ offsets_in_range o size
       | Exn _ => True
       | Stuck _ => False
       end.
Proof.
  intros Hp Hlen. unfold open_header, clean.
  unfold bind at 1, on_input at 1, modify at 1.
  unfold bind at 1, tellg at 1.
  unfold bind at 1, on_input at 1, modify at 1.
  cbv [istream_seekg_end istream_tellg istream_seekg input self failbit
       content gpos reads eofbit stream_length istream_good negb andb].
  destruct (Z.leb_spec 0 (Z.of_nat (length c))); [|lia].
  cbn [Z.leb Z.compare andb]. cbv zeta.
  rewrite (usize_small (0 + Z.of_nat (length c) - p)) by lia.
  set (size := 0 + Z.of_nat (length c) - p).
  assert (Hsize : size <= Z.of_nat (length c)) by (subst size; lia).
  destruct (read_title_block_clean size new_Measurement c 0 false log f)
    as (meas1 & p1 & e1 & log1 & Heq1); try assumption.
  unfold bind at 1. rewrite Heq1.
  destruct (locate_header_clean size c p1 e1 log1 f)
    as (r2 & p2 & e2 & log2 & Heq2 & Hr2); try assumption.
  unfold bind at 1. rewrite Heq2.
  destruct r2 as [o|ex|u]; [|do 4 eexists; split; [reflexivity|exact I]
                            |contradiction].
  unfold ret. do 4 eexists. split; [reflexivity|].
  split; [subst size; lia|exact Hr2].
Qed.

(** What [read_header] does once [open_header] has returned: the times
    are read, then the channel count is read and checked, then the
    calibration, then the instrument fields. *)
Lemma read_header_after_open c p0 e log f size o meas :
  size <= Z.of_nat (length c) -> Z.of_nat (length c) < 2 ^ 63 ->
  offsets_in_range o size ->
  let r := record_offset o in
  let meas1 :=
    with_live_time
      (cnf_duration (u32_at c (r + 16)) (u32_at c (r + 20)))
      (with_real_time
         (cnf_duration (u32_at c (r + 8)) (u32_at c (r + 12)))
         (with_start_time
            (cnf_start_time (u32_at c r) (u32_at c (r + 4))) meas)) in
  let log1 :=
    log ++ [(r, 4); (r + 4, 4); (r + 8, 4); (r + 12, 4); (r + 16, 4);
            (r + 20, 4)] in
  (do meas <- read_times o meas;
   do num_channels <- read_num_channels o;
   do meas <- read_calibration o num_channels meas;
   do meas <- read_instrument o meas;
   ret (size, num_channels, meas))
    (mkDecSt (mkIstream c p0 false e log) f)
  = (do num_channels <- read_num_channels o;
     do meas <- read_calibration o num_channels meas1;
     do meas <- read_instrument o meas;
     ret (size, num_channels, meas))
      (clean c (r + 24) log1 f).
Proof.
  intros Hsize Hlen ((Hr0 & Hr1) & _). cbv zeta.
  unfold bind at 1. rewrite read_times_clean by lia. reflexivity.
Qed.

(** X19: a decode that starts on a good, well-formed stream performs
    every header read inside the stream: [read_header] never gets stuck, never
    sets [failbit], and when it returns it hands over the number of bytes
    from the entry position to the end and a channel count that has
    passed the plausibility check. *)
Lemma read_header_safe (st : DecSt) :
  wf_stream (input st) ->
  istream_good (input st) = true ->
  exists r st',
    read_header (gpos (input st)) st = (r, st')
    /\ content (input st') = content (input st)
    /\ failbit (input st') = false
    /\ match r with
       | Val (size, n, meas) =>
           size = stream_length (input st) - gpos (input st)
           /\ 0 <= n < 2 ^ 32
           /\ invalid_num_channels n = false
       | Exn _ => True
       | Stuck _ => False
       end.
Proof.
  destruct st as [[c p fb e log] f].
  unfold wf_stream, istream_good, stream_length.
  cbn [input content gpos failbit eofbit].
  intros [Hp Hlen] Hgood.
  apply andb_true_iff in Hgood as [Hfb He].
  apply negb_true_iff in Hfb, He. subst fb e.
  unfold read_header.
  destruct (open_header_safe c p log f Hp Hlen)
    as (r0 & p0 & e0 & log0 & Heq0 & Hr0).
  unfold bind at 1. fold (clean c p log f). rewrite Heq0.
  destruct r0 as [[[size o] meas0]|ex|u];
    [|do 2 eexists; repeat split; reflexivity|contradiction].
  destruct Hr0 as [Hsz Hr2].
  assert (Hsize : size <= Z.of_nat (length c)) by lia.
  pose proof Hr2 as (Hrec & Hnum & Hcal & _).
  rewrite read_header_after_open by assumption. cbv zeta.
  unfold bind at 1. unfold clean at 1.
  rewrite read_num_channels_clean by lia. cbv zeta.
  pose proof (le_to_Z_bytes_at c (num_channel_offset o) 4
                ltac:(lia) ltac:(lia) ltac:(lia)) as Hn.
  change (256 ^ 4) with (2 ^ 32) in Hn.
  destruct (invalid_num_channels _) eqn:Hinv;
    [do 2 eexists; repeat split; reflexivity|].
  unfold bind at 1. unfold clean at 1.
  rewrite read_calibration_clean by lia. cbv zeta.
  match goal with
  | |- context [settle_calibration ?v ?cs ?m ?s] =>
      destruct (settle_calibration_state v cs m s) as (r5 & Heq5 & Hr5)
  end.
  rewrite Heq5.
  destruct r5 as [meas5|ex|u];
    [|do 2 eexists; repeat split; reflexivity|now contradiction (Hr5 u)].
  unfold bind at 1. unfold clean at 1.
  match goal with
  | |- context [read_instrument o ?m (mkDecSt (mkIstream c ?q _ _ ?l) f)] =>
      destruct (read_instrument_clean o m size c q false l f)
        as (meas6 & p6 & log6 & f6 & Heq6); try assumption
  end.
  rewrite Heq6.
  unfold ret. do 2 eexists. split; [reflexivity|].
  cbn [input content failbit clean].
  repeat split; try assumption; try lia.
Qed.

(** *** From a throwing step to a failed decode *)

Lemma decode_fails_when_header_throws st e st1 :
  istream_good (input st) = true ->
  read_header (gpos (input st)) (mkDecSt (input st) (reset (self st)))
  = (Exn e, st1) ->
  fst (load_from_cnf st) = Val false.
Proof.
  intros Hgood Hthrow. rewrite load_from_cnf_unfold. cbv zeta.
  rewrite Hgood. cbn [negb].
  unfold load_from_cnf_try. unfold bind at 1. rewrite Hthrow. reflexivity.
Qed.

Lemma open_header_shape st size o meas st1 :
  wf_stream (input st) ->
  istream_good (input st) = true ->
  open_header (gpos (input st)) (mkDecSt (input st) (reset (self st)))
  = (Val (size, o, meas), st1) ->
  exists p1 e1 log1,
    st1 = mkDecSt (mkIstream (content (input st)) p1 false e1 log1)
                  (reset (self st))
    /\ size <= stream_length (input st)
    /\ offsets_in_range o size.
Proof.
  destruct st as [[c p fb e log] f].
  unfold wf_stream, istream_good, stream_length.
  cbn [input content gpos failbit eofbit self].
  intros [Hp Hlen] Hgood Hopen.
  apply andb_true_iff in Hgood as [Hfb He].
  apply negb_true_iff in Hfb, He. subst fb e.
  destruct (open_header_safe c p log (reset f) Hp Hlen)
    as (r0 & p0 & e0 & log0 & Heq0 & Hr0).
  unfold clean in Heq0. rewrite Hopen in Heq0.
  injection Heq0 as <- ->. destruct Hr0 as [Hsz Hin].
  exists p0, e0, log0. split; [reflexivity|]. split; [lia|assumption].
Qed.

(** A channel count inside [64, 65536] that is not a power of two makes
    the whole decode return [false]. *)
Lemma decode_fails_on_invalid_num_channels st size o meas st1 :
  wf_stream (input st) ->
  istream_good (input st) = true ->
  open_header (gpos (input st)) (mkDecSt (input st) (reset (self st)))
  = (Val (size, o, meas), st1) ->
  invalid_num_channels (u32_at (content (input st)) (num_channel_offset o))
  = true ->
  fst (load_from_cnf st) = Val false.
Proof.
  intros Hwf Hgood Hopen Hinv.
  destruct (open_header_shape st size o meas st1 Hwf Hgood Hopen)
    as (p1 & e1 & log1 & -> & Hsize & Hin).
  destruct Hwf as [_ Hlen]. unfold stream_length in *.
  pose proof Hin as (_ & Hnum & _).
  match goal with
  | |- context [load_from_cnf] =>
      assert (Hthrow :
        exists st2,
          read_header (gpos (input st))
            (mkDecSt (input st) (reset (self st)))
          = (Exn (runtime_error "Invalid number of channels"), st2))
  end.
  { unfold read_header. unfold bind at 1. rewrite Hopen.
    rewrite read_header_after_open by assumption. cbv zeta.
    unfold bind at 1. unfold clean at 1.
    rewrite read_num_channels_clean by lia. cbv zeta.
    unfold u32_at in Hinv. rewrite Hinv. eexists. reflexivity. }
  destruct Hthrow as [st2 Hthrow].
  exact (decode_fails_when_header_throws st _ st2 Hgood Hthrow).
Qed.

(** Coefficients that the checker refuses and that are not all zero make
    the whole decode return [false]. *)
Lemma decode_fails_on_invalid_calibration st size o meas st1 :
  wf_stream (input st) ->
  istream_good (input st) = true ->
  open_header (gpos (input st)) (mkDecSt (input st) (reset (self st)))
  = (Val (size, o, meas), st1) ->
  let c := content (input st) in
  let n := u32_at c (num_channel_offset o) in
  let q := energy_calib_offset o in
  let coeffs :=
    [cnf_float_at c q; cnf_float_at c (q + 4); cnf_float_at c (q + 8)] in
  invalid_num_channels n = false ->
  calibration_is_valid Polynomial coeffs [] n = false ->
  forallb F32.is_zero coeffs = false ->
  fst (load_from_cnf st) = Val false.
Proof.
  intros Hwf Hgood Hopen c n q coeffs Hinv Hvalid Hnz.
  subst c n q coeffs. unfold u32_at in Hinv, Hvalid.
  destruct (open_header_shape st size o meas st1 Hwf Hgood Hopen)
    as (p1 & e1 & log1 & -> & Hsize & Hin).
  destruct Hwf as [_ Hlen]. unfold stream_length in *.
  pose proof Hin as (_ & Hnum & Hcal & _).
  assert (Hthrow :
    exists st2,
      read_header (gpos (input st))
        (mkDecSt (input st) (reset (self st)))
      = (Exn (runtime_error "Calibration parameters were invalid"), st2)).
  { unfold read_header. unfold bind at 1. rewrite Hopen.
    rewrite read_header_after_open by assumption. cbv zeta.
    unfold bind at 1. unfold clean at 1.
    rewrite read_num_channels_clean by lia. cbv zeta.
    rewrite Hinv.
    unfold bind at 1. unfold clean at 1.
    rewrite read_calibration_clean by lia. cbv zeta.
    unfold settle_calibration.
    rewrite Hvalid, Hnz. cbn [negb]. eexists. reflexivity. }
  destruct Hthrow as [st2 Hthrow].
  exact (decode_fails_when_header_throws st _ st2 Hgood Hthrow).
Qed.

(** With fewer than two channels the stores of line 412 fall outside
    [channeldata]; with two or more the decoded histogram has
    [num_channels] entries, the first two forced to zero. *)
Lemma bytes_at_length_le c p n :
  0 <= n -> Z.of_nat (length (bytes_at c p n)) <= n.
Proof. intros Hn. unfold bytes_at. rewrite length_take. lia. Qed.

Lemma u32_le x : 0 <= x -> Int.u32 x <= x.
Proof.
  intros Hx. unfold Int.u32, Int.wrap. apply Z.mod_le; lia.
Qed.

Lemma read_channel_data_stores size n meas c p0 e log f F :
  size <= Z.of_nat (length c) -> Z.of_nat (length c) < 2 ^ 63 ->
  first_block c x05 0 size F ->
  F + 512 + Int.u32 (4 * n) <= size ->
  0 <= n ->
  let r := fst (read_channel_data size n meas
                  (mkDecSt (mkIstream c p0 false e log) f)) in
  (n < 2 -> r = Stuck (OutOfBounds n 1))
  /\ (2 <= n ->
      exists meas' counts,
        r = Val meas'
        /\ gamma_counts_ meas' = Some counts
        /\ Z.of_nat (length counts) = n
        /\ counts !! 0%nat = Some F32.zero
        /\ counts !! 1%nat = Some F32.zero).
Proof.
  intros Hsize Hlen Hfirst Hcheck Hn r. subst r.
  destruct (read_channel_data_run size n meas c p0 e log f F)
    as (found & k & log' & _ & Heq); try assumption.
  cbv zeta in Heq. rewrite Heq. clear Heq.
  match goal with
  | |- context [channeldata_after_read n ?got] =>
      assert (Hl : Z.of_nat (length (channeldata_after_read n got)) = n)
  end.
  { apply channeldata_after_read_length; [assumption|].
    pose proof (u32_bound (4 * n)).
    etransitivity; [apply bytes_at_length_le; lia|].
    apply u32_le. lia. }
  split.
  - intros Hlt. rewrite finish_channel_data_short by lia.
    cbn [fst]. now rewrite Hl.
  - intros Hge.
    match goal with
    | |- context [finish_channel_data ?l ?m ?s] =>
        destruct (finish_channel_data_ok l m s)
          as (meas' & Hrun & counts & Hc & H0 & H1 & Hlen'); [lia|]
    end.
    rewrite Hrun. exists meas', counts. cbn [fst].
    repeat split; try assumption. rewrite Hlen'. exact Hl.
Qed.

(** *** What each step of a decode computes *)

Lemma read_title_block_run size meas c p0 e log f :
  size <= Z.of_nat (length c) -> Z.of_nat (length c) < 2 ^ 63 ->
  exists (found : bool) (k p' : Z) (e' : bool) (log' : list (Z * Z)),
    scan_outcome c x01 0 size found k
    /\ read_title_block size meas (mkDecSt (mkIstream c p0 false e log) f)
       = (Val (if found then title_fields c (512 * k) meas else meas),
          mkDecSt (mkIstream c p' false e' log') f).
Proof.
  intros Hsize Hlen. unfold read_title_block.
  destruct (findCnfBlock_clean x01 0 size c p0 e log f)
    as (found & k & p1 & e1 & Heq & Hout); try lia.
  exists found, k. pose proof Hout as (Hk & _ & Hat).
  unfold bind at 1. rewrite Heq.
  destruct found.
  - destruct Hat as [Hlt _].
    rewrite usize_small by lia.
    step_seekg. step_buff. step_buff. unfold clean.
    do 3 eexists. split; [exact Hout|].
    unfold title_fields, text_at. cbv zeta.
    replace (0 + (512 * k + (32 + 16))) with (512 * k + 48) by lia.
    replace (0 + (512 * k + (32 + (16 + 64)))) with (512 * k + 112) by lia.
    destruct (nonempty _); reflexivity.
  - do 3 eexists. split; [exact Hout|]. reflexivity.
Qed.

Lemma locate_header_run size c p0 e log f :
  size <= Z.of_nat (length c) -> Z.of_nat (length c) < 2 ^ 63 ->
  exists (found : bool) (k p' : Z) (e' : bool) (log' : list (Z * Z)),
    scan_outcome c x00 0 size found k
    /\ locate_header size (mkDecSt (mkIstream c p0 false e log) f)
       = ((if found
           then if offsets_out_of_range (header_at c (512 * k)) size
                then Exn (runtime_error "Invalid record offset")
                else Val (header_at c (512 * k))
           else Exn (runtime_error "Couldnt find record data")),
          mkDecSt (mkIstream c p' false e' log') f).
Proof.
  intros Hsize Hlen. unfold locate_header.
  destruct (findCnfBlock_clean x00 0 size c p0 e log f)
    as (found & k & p1 & e1 & Heq & Hout); try lia.
  exists found, k. pose proof Hout as (Hk & _ & Hat).
  unfold bind at 1. rewrite Heq.
  destruct found; cbn [negb].
  - destruct Hat as [Hlt _].
    rewrite usize_small by lia.
    step_seekg. step_u32. step_u32.
    do 3 eexists. split; [exact Hout|].
    unfold header_at, u16_at.
    replace (0 + (512 * k + 34)) with (512 * k + 34) by lia.
    replace (0 + (512 * k + 36)) with (512 * k + 36) by lia.
    replace (0 + 512 * k) with (512 * k) by lia.
    destruct (offsets_out_of_range _ size); reflexivity.
  - do 3 eexists. split; [exact Hout|]. reflexivity.
Qed.

Lemma read_instrument_run o meas size c p0 e log f :
  size <= Z.of_nat (length c) -> Z.of_nat (length c) < 2 ^ 63 ->
  offsets_in_range o size ->
  exists p' log',
    read_instrument o meas (mkDecSt (mkIstream c p0 false e log) f)
    = (Val (name_field c o meas), clean c p' log' (instrument_fields c o f)).
Proof.
  intros Hsize Hlen (_ & _ & _ & Hmca & Hins & Hgen).
  unfold read_instrument, name_field, instrument_fields, text_at.
  step_seekg. step_buff.
  destruct (nonempty (trim (string_of_list_byte (bytes_at c (mca_offset o) 8)))).
  - unfold bind at 1, on_self, modify. cbv beta iota.
    simpl (input (clean _ _ _ _)). simpl (self (clean _ _ _ _)).
    step_seekg. step_buff. step_seekg. step_buff.
    destruct (_ && _).
    + unfold bind, ret. do 2 eexists. unfold clean. reflexivity.
    + unfold bind, ret. do 2 eexists. reflexivity.
  - unfold bind at 1, ret at 1.
    step_seekg. step_buff. step_seekg. step_buff.
    destruct (_ && _).
    + unfold bind, on_self, modify, ret.
      do 2 eexists. unfold clean. reflexivity.
    + unfold bind, ret. do 2 eexists. reflexivity.
Qed.

Lemma finish_channel_data_run (l : list Z) meas st :
  2 <= Z.of_nat (length l) ->
  finish_channel_data l meas st
  = (Val (let counts := map F32.of_Z (<[0%nat := 0]> (<[1%nat := 0]> l)) in
          with_gamma (Some counts)
            (gamma_sum (gamma_count_sum_ meas) counts) meas), st).
Proof.
  intros Hl. destruct l as [|x0 [|x1 l]]; simpl in Hl; try lia.
  unfold finish_channel_data, bind, vec_store.
  assert (H1 : (0 <=? 1) && (1 <? Z.of_nat (length (x0 :: x1 :: l))) = true).
  { apply andb_true_iff. split; [reflexivity|].
    apply Z.ltb_lt. cbn [length]. lia. }
  rewrite H1. unfold ret at 1.
  change (<[Z.to_nat 1:=0]> (x0 :: x1 :: l)) with (x0 :: 0 :: l).
  assert (H0 : (0 <=? 0) && (0 <? Z.of_nat (length (x0 :: 0 :: l))) = true).
  { apply andb_true_iff. split; [reflexivity|].
    apply Z.ltb_lt. cbn [length]. lia. }
  rewrite H0. reflexivity.
Qed.

Lemma first_block_no_block c B SBeg size F :
  first_block c B SBeg size F -> no_block c B SBeg size -> False.
Proof.
  intros (k & Hk & -> & Hlt & Hm & _) Hno.
  rewrite (Hno k Hk Hlt) in Hm. discriminate.
Qed.

Lemma first_block_unique c B SBeg size F1 F2 :
  first_block c B SBeg size F1 -> first_block c B SBeg size F2 -> F1 = F2.
Proof.
  intros (k1 & Hk1 & -> & Hlt1 & Hm1 & Hb1) (k2 & Hk2 & -> & Hlt2 & Hm2 & Hb2).
  destruct (Z.lt_trichotomy k1 k2) as [Hlt|[->|Hgt]]; [|reflexivity|].
  - rewrite (Hb2 k1) in Hm1 by lia. discriminate.
  - rewrite (Hb1 k2) in Hm2 by lia. discriminate.
Qed.

Lemma calibration_fields_none c o n meas :
  calibration_fields c o n meas = None <-> calibration_refused c o n = true.
Proof.
  unfold calibration_fields, calibration_refused.
  destruct (calibration_is_valid _ _ _ _); cbn [negb andb];
    [split; discriminate|].
  destruct (forallb _ _); cbn [negb]; split; try discriminate; reflexivity.
Qed.

(** [read_header] on a good, well-formed stream: it throws or returns,
    and what it returns is described by [parsed_header]. *)
Lemma read_header_run c p log f :
  0 <= p <= Z.of_nat (length c) -> Z.of_nat (length c) < 2 ^ 63 ->
  exists r p' e' log' f',
    read_header p (clean c p log f)
    = (r, mkDecSt (mkIstream c p' false e' log') f')
    /\ match r with
       | Val (size, n, meas) =>
           size = Z.of_nat (length c) - p
           /\ 0 <= n < 2 ^ 32
           /\ parsed_header c size f n meas f'
       | Exn _ =>
           forall H, first_block c x00 0 (Z.of_nat (length c) - p) H ->
                     header_refused c (Z.of_nat (length c) - p) H = true
       | Stuck _ => False
       end.
Proof.
  intros Hp Hlen. unfold read_header, open_header, clean.
  unfold bind at 1. unfold bind at 1, on_input at 1, modify at 1.
  unfold bind at 1, tellg at 1.
  unfold bind at 1, on_input at 1, modify at 1.
  cbv [istream_seekg_end istream_tellg istream_seekg input self failbit
       content gpos reads eofbit stream_length istream_good negb andb].
  destruct (Z.leb_spec 0 (Z.of_nat (length c))); [|lia].
  cbn [Z.leb Z.compare andb]. cbv zeta.
  rewrite (usize_small (0 + Z.of_nat (length c) - p)) by lia.
  replace (0 + Z.of_nat (length c) - p) with (Z.of_nat (length c) - p) by lia.
  set (size := Z.of_nat (length c) - p).
  assert (Hsize : size <= Z.of_nat (length c)) by (subst size; lia).
  destruct (read_title_block_run size new_Measurement c 0 false log f)
    as (tf & tk & p1 & e1 & log1 & Hout1 & Heq1); try assumption.
  unfold bind at 1. rewrite Heq1.
  destruct (locate_header_run size c p1 e1 log1 f)
    as (hf & hk & p2 & e2 & log2 & Hout2 & Heq2); try assumption.
  unfold bind at 1. rewrite Heq2.
  destruct hf.
  2:{ do 5 eexists. split; [reflexivity|]. intros B HB. exfalso.
      eapply first_block_no_block; [exact HB|].
      now apply (scan_outcome_not_found _ _ _ _ hk). }
  assert (Hsame : forall B, first_block c x00 0 size B -> B = 512 * hk).
  { intros B HB.
    destruct (first_block_scan _ _ _ _ _ _ _ HB Hout2) as [_ <-]. lia. }
  destruct (offsets_out_of_range (header_at c (512 * hk)) size) eqn:Hchk.
  { do 5 eexists. split; [reflexivity|]. intros B HB.
    rewrite (Hsame B HB). unfold header_refused. now rewrite Hchk. }
  unfold ret at 1. cbv beta iota.
  set (o := header_at c (512 * hk)) in *.
  assert (Hin : offsets_in_range o size).
  { destruct Hout2 as (Hk & _ & Hlt & _).
    pose proof (le_to_Z_bytes_at c (512 * hk + 34) 2
                  ltac:(lia) ltac:(lia) ltac:(lia)) as H34.
    pose proof (le_to_Z_bytes_at c (512 * hk + 36) 2
                  ltac:(lia) ltac:(lia) ltac:(lia)) as H36.
    change (256 ^ 2) with (2 ^ 16) in *.
    apply offsets_in_range_intro; try assumption; lia. }
  pose proof Hin as (Hrec & Hnum & Hcal & _).
  rewrite read_header_after_open by assumption. cbv zeta.
  unfold bind at 1. unfold clean at 1.
  rewrite read_num_channels_clean by lia. cbv zeta.
  pose proof (le_to_Z_bytes_at c (num_channel_offset o) 4
                ltac:(lia) ltac:(lia) ltac:(lia)) as Hn.
  change (256 ^ 4) with (2 ^ 32) in Hn.
  fold (u32_at c (num_channel_offset o)) in *.
  destruct (invalid_num_channels _) eqn:Hinv.
  { do 5 eexists. split; [reflexivity|]. intros B HB.
    rewrite (Hsame B HB). unfold header_refused. fold o.
    rewrite Hinv. apply orb_true_iff. left. apply orb_true_r. }
  unfold bind at 1. unfold clean at 1.
  rewrite read_calibration_clean by lia. cbv zeta.
  fold (coefficients_at c o).
  set (n := u32_at c (num_channel_offset o)) in *.
  match goal with
  | |- context [settle_calibration _ _ ?m _] => set (meas0 := m)
  end.
  assert (Hsettle : forall s,
    settle_calibration (calibration_is_valid Polynomial (coefficients_at c o)
                          [] n) (coefficients_at c o) meas0 s
    = (match calibration_fields c o n meas0 with
       | Some m => Val m
       | None => Exn (runtime_error "Calibration parameters were invalid")
       end, s)).
  { intros s. unfold settle_calibration, calibration_fields.
    destruct (calibration_is_valid _ _ _ _); cbn [negb]; [reflexivity|].
    destruct (forallb _ _); reflexivity. }
  rewrite Hsettle.
  destruct (calibration_fields c o n meas0) as [meas1|] eqn:Hcalib.
  2:{ do 5 eexists. split; [reflexivity|]. intros B HB.
      rewrite (Hsame B HB). unfold header_refused. fold o. fold n.
      rewrite (proj1 (calibration_fields_none c o n meas0) Hcalib).
      apply orb_true_r. }
  unfold bind at 1. unfold clean at 1.
  match goal with
  | |- context [read_instrument o ?m (mkDecSt (mkIstream c ?q _ _ ?l) f)] =>
      destruct (read_instrument_run o m size c q false l f)
        as (p6 & log6 & Heq6); try assumption
  end.
  rewrite Heq6. unfold ret, clean.
  do 5 eexists. split; [reflexivity|].
  split; [reflexivity|]. split; [exact Hn|].
  exists (512 * hk), (if tf then title_fields c (512 * tk) new_Measurement
                      else new_Measurement), meas1.
  fold o. fold n.
  split.
  { replace (512 * hk) with (0 + 512 * hk) by lia.
    now apply scan_outcome_found. }
  split; [exact Hchk|]. split; [exact Hin|]. split; [reflexivity|].
  split; [exact Hinv|]. split.
  { destruct tf.
    - left. exists (512 * tk). split; [|reflexivity].
      replace (512 * tk) with (0 + 512 * tk) by lia.
      now apply scan_outcome_found.
    - right. split; [|reflexivity].
      now apply (scan_outcome_not_found _ _ _ _ tk). }
  split; [exact Hcalib|]. split; reflexivity.
Qed.

(** [read_channel_data] on a stream that has not failed: it throws,
    returns the record with its histogram, or stops at the stores of
    line 412 when there are fewer than two channels. *)
Lemma read_channel_data_outcome size n meas c p0 e log f :
  size <= Z.of_nat (length c) -> Z.of_nat (length c) < 2 ^ 63 ->
  0 <= n ->
  exists r st',
    read_channel_data size n meas (mkDecSt (mkIstream c p0 false e log) f)
    = (r, st')
    /\ self st' = f
    /\ match r with
       | Val meas' =>
           2 <= n
           /\ exists start log',
                channel_array_at c size (Int.u32 (4 * n)) start
                /\ meas' = spectrum_fields n
                             (bytes_at c start (Int.u32 (4 * n))) meas
                /\ let cnt := Int.u32 (4 * n) in
                   let got := Z.of_nat (length (bytes_at c start cnt)) in
                   input st'
                   = mkIstream c (start + got) (got <? cnt) (got <? cnt)
                               (log' ++ [(start, cnt)])
       | Exn _ =>
           forall F, first_block c x05 0 size F ->
                     size < F + 512 + Int.u32 (4 * n)
       | Stuck u =>
           u = OutOfBounds n 1 /\ n < 2
           /\ exists F, first_block c x05 0 size F
                        /\ F + 512 + Int.u32 (4 * n) <= size
       end.
Proof.
  intros Hsize Hlen Hn.
  pose proof (u32_bound (4 * n)) as Hcnt.
  pose proof (u32_le (4 * n) ltac:(lia)) as Hle.
  unfold read_channel_data.
  destruct (findCnfBlock_clean x05 0 size c p0 e log f)
    as (found1 & k1 & p1 & e1 & Heq1 & Hout1); try lia.
  unfold bind at 1. rewrite Heq1.
  destruct found1; cbn [negb].
  2:{ do 2 eexists. split; [reflexivity|]. split; [reflexivity|].
      intros F HF. exfalso. eapply first_block_no_block; [exact HF|].
      now apply (scan_outcome_not_found _ _ _ _ k1). }
  pose proof (scan_outcome_found _ _ _ _ _ Hout1) as Hfirst.
  set (F := 0 + 512 * k1) in *.
  assert (HF : 0 <= F /\ F + 512 < size).
  { destruct Hout1 as (Hk & _ & Hlt & _). subst F. lia. }
  rewrite (usize_small (F + 512)) by lia.
  destruct (findCnfBlock_clean x05 (F + 512) size c p1 e1
              (log ++ candidate_reads 0 (k1 + 1)) f)
    as (found & k & p2 & e2 & Heq2 & Hout2); try lia.
  unfold bind at 1. rewrite Heq2.
  rewrite (usize_small (F + 512 + Int.u32 (4 * n))) by lia.
  set (start := if found then F + 512 + 512 * k + 512 else F + 512).
  assert (Hstart : 0 <= start <= Z.of_nat (length c)).
  { subst start. destruct found; [|lia].
    destruct Hout2 as (Hk & _ & Hlt & _). lia. }
  assert (Hseek :
    (if found then seekg (Int.usize (F + 512 + 512 * k + 512))
     else seekg (F + 512))
      (mkDecSt (mkIstream c p2 false e2
         ((log ++ candidate_reads 0 (k1 + 1))
          ++ candidate_reads (F + 512) (if found then k + 1 else k))) f)
    = (Val tt, clean c start
         ((log ++ candidate_reads 0 (k1 + 1))
          ++ candidate_reads (F + 512) (if found then k + 1 else k)) f)).
  { subst start. destruct found.
    - rewrite (usize_small (F + 512 + 512 * k + 512)) by lia.
      now rewrite seekg_clean by lia.
    - now rewrite seekg_clean by lia. }
  unfold bind at 1. rewrite Hseek.
  destruct (Z.ltb_spec size (F + 512 + Int.u32 (4 * n))) as [Hbad|Hok].
  { do 2 eexists. split; [reflexivity|]. split; [reflexivity|].
    intros F' HF'. now rewrite (first_block_unique _ _ _ _ _ _ HF' Hfirst). }
  unfold bind at 1. rewrite read_some_any. cbv zeta.
  set (got := bytes_at c start (Int.u32 (4 * n))).
  assert (Hl : Z.of_nat (length (channeldata_after_read n got)) = n).
  { apply channeldata_after_read_length; [assumption|].
    etransitivity; [apply bytes_at_length_le; lia|exact Hle]. }
  destruct (Z.lt_ge_cases n 2) as [Hlt|Hge].
  - rewrite finish_channel_data_short by lia. rewrite Hl.
    do 2 eexists. split; [reflexivity|]. split; [reflexivity|].
    split; [reflexivity|]. split; [assumption|].
    exists F. split; [exact Hfirst|lia].
  - rewrite finish_channel_data_run by lia.
    do 2 eexists. split; [reflexivity|]. split; [reflexivity|].
    split; [assumption|]. eexists start, _.
    split; [|split; reflexivity].
    exists F. split; [exact Hfirst|]. split; [lia|].
    subst start. destruct found.
    + right. exists (F + 512 + 512 * k). split; [|reflexivity].
      now apply scan_outcome_found.
    + left. split; [|reflexivity].
      now apply (scan_outcome_not_found _ _ _ _ k).
Qed.

Lemma parsed_header_acceptable c size f n meas f' F :
  parsed_header c size f n meas f' ->
  first_block c x05 0 size F ->
  F + 512 + Int.u32 (4 * n) <= size ->
  acceptable c size n.
Proof.
  intros (H & meas0 & meas1 & HH & Hchk & _ & Hn & Hinv & _ & Hcal & _)
         HF Hcheck.
  exists H, F. repeat split; try assumption.
  unfold header_refused. rewrite Hchk, <- Hn, Hinv. cbn [orb].
  destruct (calibration_refused c (header_at c H) n) eqn:Hr; [|reflexivity].
  apply calibration_fields_none with (meas := time_fields c (header_at c H) meas0)
    in Hr.
  congruence.
Qed.

(** The [try] block on a good, well-formed stream. *)
Lemma load_from_cnf_try_run c p log f :
  0 <= p <= Z.of_nat (length c) -> Z.of_nat (length c) < 2 ^ 63 ->
  exists r st',
    load_from_cnf_try p (clean c p log f) = (r, st')
    /\ match r with
       | Val _ =>
           decoded c (Z.of_nat (length c) - p) f (self st')
           /\ left_after_read c (Z.of_nat (length c) - p) (input st')
       | Exn _ => forall n, ~ acceptable c (Z.of_nat (length c) - p) n
       | Stuck u =>
           exists n, u = OutOfBounds n 1 /\ 0 <= n < 2
                     /\ acceptable c (Z.of_nat (length c) - p) n
       end.
Proof.
  intros Hp Hlen. unfold load_from_cnf_try.
  destruct (read_header_run c p log f Hp Hlen)
    as (r0 & p0 & e0 & log0 & f0 & Heq0 & Hr0).
  unfold bind at 1. rewrite Heq0.
  destruct r0 as [[[size n] meas]|ex|u]; [| |contradiction].
  2:{ do 2 eexists. split; [reflexivity|].
      intros n (H & F & HH & _ & Hok & _). rewrite (Hr0 H HH) in Hok.
      discriminate. }
  destruct Hr0 as (-> & Hn & Hhdr).
  destruct (read_channel_data_outcome (Z.of_nat (length c) - p) n meas
              c p0 e0 log0 f0)
    as (r1 & st1 & Heq1 & Hself & Hr1); try lia.
  unfold bind at 1. rewrite Heq1.
  destruct r1 as [meas'|ex|u].
  - destruct Hr1 as (Hge & start & log' & Hat & -> & Hin).
    unfold on_self, modify. do 2 eexists. split; [reflexivity|].
    cbn [self input]. rewrite Hself. split.
    + exists n, meas, f0, start. repeat split; assumption.
    + exists n, start, log'. split; [|split; [exact Hat|exact Hin]].
      destruct Hat as (F & HF & Hcheck & _).
      now apply (parsed_header_acceptable _ _ _ _ _ _ F Hhdr).
  - do 2 eexists. split; [reflexivity|].
    intros n' (H' & F & HH' & Hn' & _ & HF & Hcheck).
    destruct Hhdr as (H & _ & _ & HH & _ & _ & Hn0 & _).
    rewrite (first_block_unique _ _ _ _ _ _ HH' HH) in Hn'.
    rewrite <- Hn0 in Hn'. subst n'.
    specialize (Hr1 F HF). lia.
  - do 2 eexists. split; [reflexivity|].
    exists n. destruct Hr1 as (-> & Hlt & F & HF & Hcheck).
    split; [reflexivity|]. split; [lia|].
    now apply (parsed_header_acceptable _ _ _ _ _ _ F Hhdr).
Qed.

Lemma decoded_acceptable c size f f' :
  decoded c size f f' -> exists n, acceptable c size n /\ 2 <= n.
Proof.
  intros (n & meas & f1 & start & Hhdr & Hge & (F & HF & Hcheck & _) & _).
  exists n. split; [|assumption].
  now apply (parsed_header_acceptable _ _ _ _ _ _ F Hhdr).
Qed.

Lemma acceptable_unique c size n1 n2 :
  acceptable c size n1 -> acceptable c size n2 -> n1 = n2.
Proof.
  intros (H1 & _ & HH1 & -> & _) (H2 & _ & HH2 & -> & _).
  now rewrite (first_block_unique _ _ _ _ _ _ HH1 HH2).
Qed.

(** The whole decode on a well-formed stream: it never lets an
    exception out; it returns [true] after appending one decoded record
    and calling [cleanup_after_load]; it returns [false] on a stream that
    is not good or not acceptable; the only undefined behaviour it can
    reach is the store of line 412 with fewer than two channels. *)
Lemma load_from_cnf_run st :
  wf_stream (input st) ->
  let c := content (input st) in
  let size := stream_length (input st) - gpos (input st) in
  match fst (load_from_cnf st) with
  | Val true =>
      istream_good (input st) = true
      /\ exists f',
           decoded c size (reset (self st)) f'
           /\ self (snd (load_from_cnf st)) = cleanup_after_load f'
           /\ left_after_read c size (input (snd (load_from_cnf st)))
  | Val false =>
      istream_good (input st) = false \/ forall n, ~ acceptable c size n
  | Exn _ => False
  | Stuck u =>
      istream_good (input st) = true
      /\ exists n, u = OutOfBounds n 1 /\ 0 <= n < 2 /\ acceptable c size n
  end.
Proof.
  destruct st as [[c p fb e log] f].
  unfold wf_stream, stream_length. cbn [input content gpos self].
  intros [Hp Hlen]. rewrite load_from_cnf_unfold. cbv zeta.
  cbn [input self gpos].
  destruct fb; [now left|]. destruct e; [now left|].
  cbn [istream_good failbit eofbit negb andb].
  destruct (load_from_cnf_try_run c p log (reset f) Hp Hlen)
    as (r & st' & Heq & Hr).
  unfold clean in Heq. rewrite Heq.
  destruct r as [[]|ex|u]; cbn [fst snd self].
  - split; [reflexivity|]. destruct Hr as [Hdec Hleft].
    exists (self st'). split; [exact Hdec|]. split; [reflexivity|exact Hleft].
  - right. exact Hr.
  - split; [reflexivity|exact Hr].
Qed.

Lemma load_from_cnf_true st :
  wf_stream (input st) ->
  fst (load_from_cnf st) = Val true ->
  istream_good (input st) = true
  /\ exists f',
       decoded (content (input st))
               (stream_length (input st) - gpos (input st))
               (reset (self st)) f'
       /\ self (snd (load_from_cnf st)) = cleanup_after_load f'.
Proof.
  intros Hwf Htrue. pose proof (load_from_cnf_run st Hwf) as Hrun.
  cbv zeta in Hrun. rewrite Htrue in Hrun.
  destruct Hrun as (Hgood & f' & Hdec & Hself & _).
  split; [exact Hgood|]. exists f'. split; assumption.
Qed.

(** *** Which streams are accepted *)




Lemma u16_at_bound c p : 0 <= u16_at c p < 2 ^ 16.
Proof.
  unfold u16_at. pose proof (le_to_Z_bound (bytes_at c p 2)) as Hb.
  pose proof (bytes_at_length_le c p 2 ltac:(lia)) as Hl.
  assert (256 ^ Z.of_nat (length (bytes_at c p 2)) <= 256 ^ 2)
    by (apply Z.pow_le_mono_r; lia).
  change (256 ^ 2) with (2 ^ 16) in *. lia.
Qed.

Lemma is_marker_tag c B1 B2 p :
  is_marker c B1 p = true -> is_marker c B2 p = true -> B1 = B2.
Proof.
  unfold is_marker.
  destruct (bytes_at c p 2) as [|b0 [|b1 [|b2 l]]]; try discriminate.
  intros H1 H2.
  apply andb_true_iff in H1 as [H1 _]. apply andb_true_iff in H2 as [H2 _].
  apply Byte.byte_dec_bl in H1, H2. congruence.
Qed.

Lemma acceptable_size c size n :
  size < 2 ^ 63 ->
  acceptable c size n ->
  1024 < size
  /\ exists H, first_block c x00 0 size H
               /\ H + u16_at c (H + 34) + 1000 <= size.
Proof.
  intros Hsize (B & F & HB & _ & Hok & HF & _).
  pose proof (u16_at_bound c (B + 34)) as H34.
  unfold header_refused in Hok.
  apply orb_false_iff in Hok as [Hok _].
  apply orb_false_iff in Hok as [Hok _].
  unfold offsets_out_of_range in Hok.
  apply orb_false_iff in Hok as [_ Hser].
  apply Z.ltb_ge in Hser.
  unfold header_at, header_offsets in Hser. cbn [serial_num_offset] in Hser.
  destruct HB as (kb & Hkb & -> & Hltb & Hmb & Hbb).
  destruct HF as (kf & Hkf & -> & Hltf & Hmf & Hbf).
  rewrite (usize_small (0 + 512 * kb + u16_at c (0 + 512 * kb + 34) + 48 + 940))
    in Hser by lia.
  rewrite usize_small in Hser by lia.
  split.
  - destruct (Z.eq_dec kb kf) as [->|Hne].
    + pose proof (is_marker_tag _ _ _ _ Hmb Hmf). discriminate.
    + lia.
  - exists (0 + 512 * kb). split; [|lia].
    exists kb. repeat split; assumption.
Qed.

(** X4: a stream that [load_from_cnf] accepts holds more than 1024
    bytes from the entry position on, and at least 1000 bytes from the
    start of its header block: shorter input is always refused. *)
Theorem accepted_stream_size (st : DecSt) :
  wf_stream (input st) ->
  fst (load_from_cnf st) = Val true ->
  let c := content (input st) in
  let size := stream_length (input st) - gpos (input st) in
  1024 < size
  /\ exists H, first_block c x00 0 size H
               /\ H + u16_at c (H + 34) + 1000 <= size.
Proof.
  intros Hwf Htrue c size.
  destruct (load_from_cnf_true st Hwf Htrue) as (_ & f' & Hdec & _).
  destruct (decoded_acceptable _ _ _ _ Hdec) as (n & Hacc & _).
  apply (acceptable_size _ _ n); [|exact Hacc].
  destruct Hwf as [Hp Hlen]. subst size. lia.
Qed.

(** *** Streams too short to hold a block *)

Lemma findCnfBlock_short B size st :
  size <= 512 -> findCnfBlock B 0 size st = (Val (false, 0), st).
Proof.
  intros Hsize. unfold findCnfBlock.
  destruct (Z.to_nat (size / 512) + 2)%nat; cbn [findCnfBlock_loop];
    change (Int.usize (0 + 512)) with 512;
    destruct (Z.ltb_spec 512 size); try lia; reflexivity.
Qed.

(** X5: a good stream with at most 512 bytes from the entry position
    on is refused without a single read: [load_from_cnf] returns [false],
    the read log is what it was and the stream is back at the entry
    position with no state bit set. *)
Theorem short_stream_refused_unread (st : DecSt) :
  wf_stream (input st) ->
  istream_good (input st) = true ->
  stream_length (input st) - gpos (input st) <= 512 ->
  fst (load_from_cnf st) = Val false
  /\ reads (input (snd (load_from_cnf st))) = reads (input st)
  /\ gpos (input (snd (load_from_cnf st))) = gpos (input st)
  /\ istream_good (input (snd (load_from_cnf st))) = true.
Proof.
  destruct st as [[c p fb e log] f].
  unfold wf_stream, istream_good, stream_length.
  cbn [input content gpos failbit eofbit self].
  intros [Hp Hlen] Hgood Hshort.
  apply andb_true_iff in Hgood as [Hfb He].
  apply negb_true_iff in Hfb, He. subst fb e.
  assert (Htry :
    load_from_cnf_try p (mkDecSt (mkIstream c p false false log) (reset f))
    = (Exn (runtime_error "Couldnt find record data"),
       mkDecSt (mkIstream c 0 false false log) (reset f))).
  { unfold load_from_cnf_try, read_header, open_header.
    unfold bind at 1. unfold bind at 1. unfold bind at 1.
    unfold on_input at 1, modify at 1.
    unfold bind at 1, tellg at 1.
    unfold bind at 1, on_input at 1, modify at 1.
    cbv [istream_seekg_end istream_tellg istream_seekg input self failbit
         content gpos reads eofbit stream_length istream_good negb andb].
    destruct (Z.leb_spec 0 (Z.of_nat (length c))); [|lia].
    cbn [Z.leb Z.compare andb]. cbv zeta.
    rewrite (usize_small (0 + Z.of_nat (length c) - p)) by lia.
    unfold bind at 1. unfold read_title_block at 1.
    unfold bind at 1. rewrite findCnfBlock_short by lia.
    unfold ret at 1.
    unfold bind at 1. unfold locate_header at 1.
    unfold bind at 1. rewrite findCnfBlock_short by lia.
    reflexivity. }
  rewrite load_from_cnf_unfold. cbv zeta.
  cbn [input self gpos istream_good failbit eofbit negb andb].
  rewrite Htry.
  cbv [fst snd input self istream_seekg istream_clear failbit content gpos
       reads eofbit stream_length negb andb].
  destruct (Z.leb_spec 0 p); [|lia].
  destruct (Z.leb_spec p (Z.of_nat (length c))); [|lia].
  repeat split.
Qed.

(** *** What an accepted stream decodes to *)

Lemma calibration_fields_some c o n meas meas1 :
  calibration_fields c o n meas = Some meas1 ->
  (calibration_is_valid Polynomial (coefficients_at c o) [] n = true
   /\ meas1 = with_calibration (coefficients_at c o) Polynomial meas)
  \/ (calibration_is_valid Polynomial (coefficients_at c o) [] n = false
      /\ forallb F32.is_zero (coefficients_at c o) = true
      /\ meas1 = with_calibration [] InvalidEquationType meas).
Proof.
  unfold calibration_fields.
  destruct (calibration_is_valid _ _ _ _).
  - intros [= <-]. now left.
  - destruct (forallb _ _); [|discriminate].
    intros [= <-]. right. repeat split.
Qed.

(** The offsets of a header block at [H], without the reduction to
    [size_t]. *)
Lemma header_at_offsets c H :
  0 <= H < 2 ^ 63 ->
  let w34 := u16_at c (H + 34) in
  let w36 := u16_at c (H + 36) in
  header_at c H
  = {| record_offset := H + w36 + 49;
       num_channel_offset := H + 185;
       energy_calib_offset := H + w34 + 116;
       mca_offset := H + w34 + 204;
       instrument_offset := H + w34 + 49;
       generic_detector_offset := H + w34 + 780;
       specific_detector_offset := H + w34 + 74;
       serial_num_offset := H + w34 + 988 |}.
Proof.
  intros HH w34 w36. subst w34 w36.
  pose proof (u16_at_bound c (H + 34)). pose proof (u16_at_bound c (H + 36)).
  unfold header_at, header_offsets.
  rewrite !usize_small by lia. f_equal; lia.
Qed.

Lemma first_block_range c B SBeg size F :
  0 <= SBeg -> first_block c B SBeg size F -> 0 <= F /\ F + 512 < size.
Proof. intros HS (k & Hk & -> & Hlt & _). lia. Qed.


(** X7: when [load_from_cnf] returns [true], the calibration of the
    appended record is decided by the three word-swapped floats at
    [H + w34 + 116], with [w34] the [uint16_t] at [H + 34]: if the checker
    accepts them for the channel count at [H + 185], they are the
    coefficients and the model is [Polynomial]; otherwise all three are
    zero, the record has no coefficients and the model is
    [InvalidEquationType].  The coefficient list has three entries or
    none. *)
Theorem decoded_calibration (st : DecSt) :
  wf_stream (input st) ->
  fst (load_from_cnf st) = Val true ->
  let c := content (input st) in
  let size := stream_length (input st) - gpos (input st) in
  exists H meas f',
    first_block c x00 0 size H
    /\ self (snd (load_from_cnf st)) = cleanup_after_load f'
    /\ last (measurements_ f') = Some meas
    /\ let q := H + u16_at c (H + 34) + 116 in
       let coeffs :=
         [cnf_float_at c q; cnf_float_at c (q + 4); cnf_float_at c (q + 8)] in
       let n := u32_at c (H + 185) in
       (calibration_is_valid Polynomial coeffs [] n = true
        /\ calibration_coeffs_ meas = coeffs
        /\ energy_calibration_model_ meas = Polynomial)
       \/ (calibration_is_valid Polynomial coeffs [] n = false
           /\ forallb F32.is_zero coeffs = true
           /\ calibration_coeffs_ meas = []
           /\ energy_calibration_model_ meas = InvalidEquationType).
Proof.
  intros Hwf Htrue c size.
  destruct (load_from_cnf_true st Hwf Htrue) as (_ & f' & Hdec & Hself).
  fold c size in Hdec.
  destruct Hdec as (n & meas & f1 & start & Hhdr & Hge & Hat & ->).
  destruct Hhdr as (B & meas0 & meas1 & HB & Hchk & Hin & Hn & Hinv
                    & Htitle & Hcal & -> & ->).
  destruct (first_block_range _ _ 0 _ _ ltac:(lia) HB) as [HB0 HB1].
  assert (Hsz : size < 2 ^ 63) by (destruct Hwf; subst size; lia).
  eexists B, _, _. split; [exact HB|]. split; [exact Hself|].
  split; [cbn [measurements_ push_measurement]; apply last_snoc|].
  rewrite (header_at_offsets c B) in Hcal, Hn by lia.
  cbv zeta in Hcal, Hn. cbn [num_channel_offset] in Hn. subst n.
  destruct (calibration_fields_some _ _ _ _ _ Hcal)
    as [[Hv ->]|(Hv & Hz & ->)];
    unfold coefficients_at in *; cbn [energy_calib_offset] in *;
    unfold spectrum_fields, name_field; destruct (nonempty _);
    cbv zeta; [left|left|right|right]; repeat split; assumption.
Qed.

Lemma later_fields_keep_texts n got c o (m : Measurement) :
  title_ (spectrum_fields n got (name_field c o m)) = title_ m
  /\ meas_remarks_ (spectrum_fields n got (name_field c o m))
     = meas_remarks_ m
  /\ detector_name_ (spectrum_fields n got (name_field c o m))
     = if nonempty (text_at c (instrument_offset o) 31)
       then text_at c (instrument_offset o) 31
       else detector_name_ m.
Proof.
  unfold spectrum_fields, name_field. cbv zeta.
  destruct (nonempty _); repeat split.
Qed.

(** X8: when [load_from_cnf] returns [true], the texts of the appended
    record are the trimmed fields of the stream: the detector name is the
    31 characters at [H + w34 + 49]; with a first block tagged [0x01] at
    [T], the title is the 64 characters at [T + 48] and a non-blank sample
    id (16 characters at [T + 112]) is the only remark; without such a
    block the title is empty and there is no remark. *)
Theorem decoded_texts (st : DecSt) :
  wf_stream (input st) ->
  fst (load_from_cnf st) = Val true ->
  let c := content (input st) in
  let size := stream_length (input st) - gpos (input st) in
  exists H meas f',
    first_block c x00 0 size H
    /\ self (snd (load_from_cnf st)) = cleanup_after_load f'
    /\ last (measurements_ f') = Some meas
    /\ detector_name_ meas = text_at c (H + u16_at c (H + 34) + 49) 31
    /\ ((exists T,
           first_block c x01 0 size T
           /\ title_ meas = text_at c (T + 48) 64
           /\ meas_remarks_ meas
              = if nonempty (text_at c (T + 112) 16)
                then [String.append "Sample ID: " (text_at c (T + 112) 16)]
                else [])
        \/ (no_block c x01 0 size
            /\ title_ meas = EmptyString /\ meas_remarks_ meas = [])).
Proof.
  intros Hwf Htrue c size.
  destruct (load_from_cnf_true st Hwf Htrue) as (_ & f' & Hdec & Hself).
  fold c size in Hdec.
  destruct Hdec as (n & meas & f1 & start & Hhdr & Hge & Hat & ->).
  destruct Hhdr as (B & meas0 & meas1 & HB & Hchk & Hin & Hn & Hinv
                    & Htitle & Hcal & -> & ->).
  destruct (first_block_range _ _ 0 _ _ ltac:(lia) HB) as [HB0 HB1].
  assert (Hsz : size < 2 ^ 63) by (destruct Hwf; subst size; lia).
  eexists B, _, _. split; [exact HB|]. split; [exact Hself|].
  split; [cbn [measurements_ push_measurement]; apply last_snoc|].
  assert (Hoff : instrument_offset (header_at c B)
                 = B + u16_at c (B + 34) + 49).
  { rewrite header_at_offsets by lia. reflexivity. }
  rewrite <- Hoff.
  destruct (later_fields_keep_texts n (bytes_at c start (Int.u32 (4 * n)))
              c (header_at c B) meas1) as (-> & -> & ->).
  assert (Hkeep : title_ meas1 = title_ meas0
                  /\ meas_remarks_ meas1 = meas_remarks_ meas0
                  /\ detector_name_ meas1 = detector_name_ meas0).
  { destruct (calibration_fields_some _ _ _ _ _ Hcal)
      as [[_ ->]|(_ & _ & ->)]; repeat split. }
  destruct Hkeep as (-> & -> & ->).
  assert (Hd0 : detector_name_ meas0 = EmptyString).
  { destruct Htitle as [(T & _ & ->)|[_ ->]]; [|reflexivity].
    unfold title_fields. cbv zeta. destruct (nonempty _); reflexivity. }
  rewrite Hd0. split.
  - unfold nonempty.
    destruct (String.eqb_spec
                (text_at c (instrument_offset (header_at c B)) 31) "")
      as [Heq|Hne]; cbn [negb]; [now rewrite Heq|reflexivity].
  - destruct Htitle as [(T & HT & ->)|[Hno ->]].
    + left. exists T. split; [exact HT|].
      unfold title_fields. cbv zeta.
      destruct (nonempty _); split; reflexivity.
    + right. split; [exact Hno|]. split; reflexivity.
Qed.

(** *** The histogram *)

Lemma lookup_map {A B} (g : A -> B) (l : list A) (i : nat) :
  map g l !! i = g <$> (l !! i).
Proof.
  revert i. induction l as [|x l IH]; intros [|i]; simpl; try reflexivity.
  apply IH.
Qed.

Lemma le_words_lookup fuel : forall bs (i : nat),
  (i < fuel)%nat -> (4 * fuel <= length bs)%nat ->
  Int.le_words fuel bs !! i
  = Some (Int.le_to_Z (take 4 (drop (4 * i) bs))).
Proof.
  induction fuel as [|fuel IH]; intros bs i Hi Hlen; [lia|].
  destruct bs as [|b0 [|b1 [|b2 [|b3 rest]]]]; simpl in Hlen; try lia.
  cbn [Int.le_words]. destruct i as [|i].
  - reflexivity.
  - replace (4 * S i)%nat with (4 + 4 * i)%nat by lia.
    cbn [lookup list_lookup drop Nat.add]. simpl drop.
    apply IH; lia.
Qed.

(** Entry [i] of the histogram, for [i >= 2]: the word made of the four
    bytes at [4 * i] of what the read delivered, padded with zeros. *)
Lemma histogram_lookup n got (i : nat) :
  (2 <= i)%nat -> Z.of_nat i < n ->
  Z.of_nat (length got) <= 4 * n ->
  histogram n got !! i
  = Some (F32.of_Z
            (Int.le_to_Z
               (take 4 (drop (4 * i)
                          (got ++ replicate (4 * Z.to_nat n - length got)
                                            x00))))).
Proof.
  intros Hi Hin Hgot. unfold histogram, channeldata_after_read.
  rewrite lookup_map.
  rewrite !list_lookup_insert_ne by lia.
  rewrite le_words_lookup; [reflexivity|lia|].
  rewrite length_app, length_replicate. lia.
Qed.

Lemma histogram_length n got :
  0 <= n -> Z.of_nat (length got) <= 4 * n ->
  Z.of_nat (length (histogram n got)) = n.
Proof.
  intros Hn Hgot. unfold histogram.
  rewrite length_map, !length_insert.
  now apply channeldata_after_read_length.
Qed.

Lemma histogram_first_two n got :
  2 <= n -> Z.of_nat (length got) <= 4 * n ->
  histogram n got !! 0%nat = Some F32.zero
  /\ histogram n got !! 1%nat = Some F32.zero.
Proof.
  intros Hn Hgot.
  pose proof (channeldata_after_read_length n got ltac:(lia) Hgot) as Hl.
  unfold histogram. rewrite !lookup_map. split.
  - rewrite list_lookup_insert_eq by (rewrite length_insert; lia).
    reflexivity.
  - rewrite list_lookup_insert_ne by lia.
    rewrite list_lookup_insert_eq by lia. reflexivity.
Qed.

(** A channel whose four bytes the read delivered holds the
    little-endian word stored there. *)
Lemma histogram_word c start cnt n (i : nat) :
  (2 <= i)%nat -> Z.of_nat i < n -> 0 <= start -> cnt <= 4 * n ->
  4 * Z.of_nat i + 4 <= cnt ->
  start + 4 * Z.of_nat i + 4 <= Z.of_nat (length c) ->
  histogram n (bytes_at c start cnt) !! i
  = Some (F32.of_Z (u32_at c (start + 4 * Z.of_nat i))).
Proof.
  intros Hi Hin Hstart Hcnt Hword Hend.
  assert (Hgot : 4 * Z.of_nat i + 4
                 <= Z.of_nat (length (bytes_at c start cnt))).
  { unfold bytes_at. rewrite length_take, length_drop. lia. }
  rewrite histogram_lookup;
    [|assumption|assumption
     |etransitivity; [apply bytes_at_length_le; lia|assumption]].
  do 3 f_equal. unfold u32_at.
  rewrite drop_app_le by lia.
  rewrite take_app_le by (rewrite length_drop; lia).
  unfold bytes_at.
  rewrite skipn_firstn_comm, take_take, drop_drop.
  f_equal. f_equal; [lia|f_equal; lia].
Qed.

(** A channel the read did not reach is zero. *)
Lemma histogram_unread c start cnt n (i : nat) :
  2 <= n -> Z.of_nat i < n -> 0 <= cnt <= 4 * n ->
  Z.of_nat (length (bytes_at c start cnt)) <= 4 * Z.of_nat i ->
  histogram n (bytes_at c start cnt) !! i = Some F32.zero.
Proof.
  intros Hn Hin Hcnt Hshort.
  assert (Hgot : Z.of_nat (length (bytes_at c start cnt)) <= 4 * n).
  { etransitivity; [apply bytes_at_length_le; lia|lia]. }
  destruct (Nat.lt_ge_cases i 2) as [Hlt|Hge].
  - destruct (histogram_first_two n (bytes_at c start cnt)) as [H0 H1];
      [lia|assumption|].
    destruct i as [|[|i]]; [exact H0|exact H1|lia].
  - rewrite histogram_lookup by assumption.
    rewrite drop_app_ge by lia.
    rewrite drop_replicate, take_replicate.
    replace (4 `min` (4 * Z.to_nat n - length (bytes_at c start cnt)
                      - (4 * i - length (bytes_at c start cnt))))%nat
      with 4%nat by lia.
    reflexivity.
Qed.

Lemma u32_at_bound c p : 0 <= u32_at c p < 2 ^ 32.
Proof.
  unfold u32_at. pose proof (le_to_Z_bound (bytes_at c p 4)) as Hb.
  pose proof (bytes_at_length_le c p 4 ltac:(lia)) as Hl.
  assert (256 ^ Z.of_nat (length (bytes_at c p 4)) <= 256 ^ 4)
    by (apply Z.pow_le_mono_r; lia).
  change (256 ^ 4) with (2 ^ 32) in *. lia.
Qed.

(** The record an accepted stream decodes to, and the host it is
    appended to. *)
Lemma load_from_cnf_record st :
  wf_stream (input st) ->
  fst (load_from_cnf st) = Val true ->
  let c := content (input st) in
  let size := stream_length (input st) - gpos (input st) in
  exists H start meas1,
    let n := u32_at c (H + 185) in
    first_block c x00 0 size H
    /\ 0 <= H /\ H + 512 < size
    /\ 2 <= n < 2 ^ 32
    /\ channel_array_at c size (Int.u32 (4 * n)) start
    /\ gamma_count_sum_ meas1 = F64.zero
    /\ self (snd (load_from_cnf st))
       = cleanup_after_load
           (push_measurement
              (spectrum_fields n (bytes_at c start (Int.u32 (4 * n)))
                 (name_field c (header_at c H) meas1))
              (instrument_fields c (header_at c H) (reset (self st)))).
Proof.
  intros Hwf Htrue c size.
  destruct (load_from_cnf_true st Hwf Htrue) as (_ & f' & Hdec & Hself).
  fold c size in Hdec.
  destruct Hdec as (n & meas & f1 & start & Hhdr & Hge & Hat & ->).
  destruct Hhdr as (B & meas0 & meas1 & HB & Hchk & Hin & Hn & Hinv
                    & Htitle & Hcal & -> & ->).
  destruct (first_block_range _ _ 0 _ _ ltac:(lia) HB) as [HB0 HB1].
  assert (Hsz : size < 2 ^ 63) by (destruct Hwf; subst size; lia).
  rewrite (header_at_offsets c B) in Hn by lia.
  cbv zeta in Hn. cbn [num_channel_offset] in Hn. subst n.
  exists B, start, meas1. cbv zeta.
  split; [exact HB|]. split; [exact HB0|]. split; [exact HB1|].
  split; [pose proof (u32_at_bound c (B + 185)); lia|].
  split; [exact Hat|]. split; [|exact Hself].
  assert (H0 : gamma_count_sum_ meas0 = F64.zero).
  { destruct Htitle as [(T & _ & ->)|[_ ->]]; [|reflexivity].
    unfold title_fields. cbv zeta. destruct (nonempty _); reflexivity. }
  destruct (calibration_fields_some _ _ _ _ _ Hcal)
    as [[_ ->]|(_ & _ & ->)]; exact H0.
Qed.

Lemma channel_array_at_range c size cnt start :
  channel_array_at c size cnt start -> 512 <= start < size.
Proof.
  intros (F & HF & _ & [[_ ->]|(S & HS & ->)]).
  - destruct (first_block_range _ _ 0 _ _ ltac:(lia) HF). lia.
  - destruct (first_block_range _ _ 0 _ _ ltac:(lia) HF) as [HF0 _].
    destruct (first_block_range _ _ (F + 512) _ _ ltac:(lia) HS). lia.
Qed.




(** X12: when [load_from_cnf] returns [true], the host object handed
    to [cleanup_after_load] is what [reset()] left, with exactly one
    record appended, with the remark "MCA Type: ..." appended when the 8
    characters at [H + w34 + 204] are not blank, and with the detector set
    to the Falcon 5000 exactly when those characters are "I2K" and the 8
    characters at [H + w34 + 780] are "Ge". *)
Theorem decoded_host (st : DecSt) :
  wf_stream (input st) ->
  fst (load_from_cnf st) = Val true ->
  let c := content (input st) in
  let size := stream_length (input st) - gpos (input st) in
  let f0 := reset (self st) in
  exists H meas f',
    let mca_type := text_at c (H + u16_at c (H + 34) + 204) 8 in
    let generic_detector := text_at c (H + u16_at c (H + 34) + 780) 8 in
    first_block c x00 0 size H
    /\ self (snd (load_from_cnf st)) = cleanup_after_load f'
    /\ measurements_ f' = measurements_ f0 ++ [meas]
    /\ remarks_ f'
       = remarks_ f0
         ++ (if nonempty mca_type
             then [String.append "MCA Type: " mca_type] else [])
    /\ filename_ f' = filename_ f0
    /\ if String.eqb mca_type "I2K" && String.eqb generic_detector "Ge"
       then detector_type_ f' = Falcon5000
            /\ instrument_type_ f' = "Spectrometer"%string
            /\ manufacturer_ f' = "Canberra"%string
            /\ instrument_model_ f' = "Falcon 5000"%string
       else detector_type_ f' = detector_type_ f0
            /\ instrument_type_ f' = instrument_type_ f0
            /\ manufacturer_ f' = manufacturer_ f0
            /\ instrument_model_ f' = instrument_model_ f0.
Proof.
  intros Hwf Htrue c size f0.
  destruct (load_from_cnf_record st Hwf Htrue)
    as (B & start & meas1 & HB & HB0 & HB1 & Hn & Hat & Hsum & Hself).
  fold c size f0 in HB, HB1, Hn, Hat, Hself.
  assert (Hsz : size < 2 ^ 63) by (destruct Hwf; subst size; lia).
  eexists B, _, _. cbv zeta.
  split; [exact HB|]. split; [exact Hself|].
  unfold instrument_fields. cbv zeta.
  rewrite (header_at_offsets c B) by lia. cbv zeta.
  cbn [mca_offset generic_detector_offset].
  destruct (nonempty _); destruct (_ && _);
    cbn [measurements_ remarks_ filename_ detector_type_ instrument_type_
         manufacturer_ instrument_model_ push_measurement set_instrument
         push_remark];
    rewrite ?app_nil_r; repeat split.
Qed.

(** *** The word-swapped float *)

(** X13: for a stored value that is a normal single with unbiased
    exponent of the least significant bit at least [-147] (a value of
    magnitude at least [2^-124]), the multiplication by [0.25f] in
    [readCnfFloat] is exact: the result has the same sign and mantissa
    and an exponent lower by two. *)
Theorem cnf_float_exact (b0 b1 b2 b3 : byte) (s : bool) (m : positive)
    (e : Z) :
  ieee754_single_of_bytes [b2; b3; b0; b1] = S754_finite s m e ->
  Zpos (digits2_pos m) = 24 ->
  -147 <= e ->
  cnf_float_of_Buf b0 b1 b2 b3 = S754_finite s m (e - 2).
Proof.
  intros Hval Hd He. unfold cnf_float_of_Buf. cbv zeta.
  rewrite of_bits_le_bytes, Hval.
  apply mul_quarter_exact; [assumption|]. split; [assumption|].
  unfold ieee754_single_of_bytes in Hval. cbv zeta in Hval.
  pose proof (byte_to_Z_bound b0). pose proof (byte_to_Z_bound b1).
  set (biased := 2 * (Int.byte_to_Z b1 mod 128) + Int.byte_to_Z b0 / 128)
    in *.
  assert (Hb : 0 <= biased <= 255)
    by (subst biased; Z.div_mod_to_equations; lia).
  destruct (biased =? 0).
  - destruct (_ =? 0); [discriminate|].
    injection Hval as _ _ <-. lia.
  - destruct (Z.eqb_spec biased 255).
    + destruct (_ =? 0); discriminate.
    + injection Hval as _ _ <-. lia.
Qed.

(** *** [load_cnf_file] *)



(** *** The stream after a decode *)

(** X16: when [load_from_cnf] returns [true] the stream is not put
    back: it is left right after the bytes the bulk read delivered, its
    last read is that of the [4 * num_channels] bytes (reduced to
    [uint32_t]) of the channel array, and [failbit] and [eofbit] are set
    exactly when the stream ran out before that many bytes. *)
Theorem decoded_stream_left (st : DecSt) :
  wf_stream (input st) ->
  fst (load_from_cnf st) = Val true ->
  let c := content (input st) in
  let size := stream_length (input st) - gpos (input st) in
  let i' := input (snd (load_from_cnf st)) in
  exists H start,
    let cnt := Int.u32 (4 * u32_at c (H + 185)) in
    let got := Z.of_nat (length (bytes_at c start cnt)) in
    first_block c x00 0 size H
    /\ channel_array_at c size cnt start
    /\ content i' = c
    /\ gpos i' = start + got
    /\ last (reads i') = Some (start, cnt)
    /\ failbit i' = (got <? cnt)
    /\ eofbit i' = (got <? cnt).
Proof.
  intros Hwf Htrue c size i'.
  pose proof (load_from_cnf_run st Hwf) as Hrun.
  cbv zeta in Hrun. rewrite Htrue in Hrun.
  destruct Hrun as (_ & f' & _ & _ & n & start & log' & Hacc & Hat & Hin).
  fold c size i' in Hacc, Hat, Hin. cbv zeta in Hin.
  destruct Hacc as (B & F & HB & Hn & _).
  destruct (first_block_range _ _ 0 _ _ ltac:(lia) HB) as [HB0 HB1].
  assert (Hsz : size < 2 ^ 63) by (destruct Hwf; subst size; lia).
  rewrite (header_at_offsets c B) in Hn by lia.
  cbv zeta in Hn. cbn [num_channel_offset] in Hn. subst n.
  exists B, start. cbv zeta.
  split; [exact HB|]. split; [exact Hat|].
  rewrite Hin. cbn [content gpos reads failbit eofbit].
  rewrite last_snoc. repeat split.
Qed.

(** X17: whether [load_from_cnf] accepts a well-formed stream, refuses
    it or stops at the store of line 412 depends on the stream alone, not
    on what the host object held. *)
Theorem decode_outcome_ignores_host (i : istream) (f1 f2 : SpecFile) :
  wf_stream i ->
  fst (load_from_cnf (mkDecSt i f1)) = fst (load_from_cnf (mkDecSt i f2)).
Proof.
  intros Hwf.
  pose proof (load_from_cnf_run (mkDecSt i f1) Hwf) as H1.
  pose proof (load_from_cnf_run (mkDecSt i f2) Hwf) as H2.
  cbv zeta in H1, H2. cbn [input self] in H1, H2.
  destruct (fst (load_from_cnf (mkDecSt i f1))) as [[]|ex1|u1];
    destruct (fst (load_from_cnf (mkDecSt i f2))) as [[]|ex2|u2];
    try reflexivity; try contradiction.
  - destruct H1 as (Hgood & g & Hdec & _).
    destruct (decoded_acceptable _ _ _ _ Hdec) as (n & Hacc & _).
    destruct H2 as [Hbad|Hno]; [congruence|now contradiction (Hno n)].
  - destruct H1 as (_ & g & Hdec & _).
    destruct (decoded_acceptable _ _ _ _ Hdec) as (n & Hacc & Hge).
    destruct H2 as (_ & n' & _ & Hlt & Hacc').
    pose proof (acceptable_unique _ _ _ _ Hacc Hacc'). lia.
  - destruct H2 as (Hgood & g & Hdec & _).
    destruct (decoded_acceptable _ _ _ _ Hdec) as (n & Hacc & _).
    destruct H1 as [Hbad|Hno]; [congruence|now contradiction (Hno n)].
  - destruct H2 as (Hgood & n & _ & _ & Hacc).
    destruct H1 as [Hbad|Hno]; [congruence|now contradiction (Hno n)].
  - destruct H2 as (_ & g & Hdec & _).
    destruct (decoded_acceptable _ _ _ _ Hdec) as (n & Hacc & Hge).
    destruct H1 as (_ & n' & _ & Hlt & Hacc').
    pose proof (acceptable_unique _ _ _ _ Hacc Hacc'). lia.
  - destruct H1 as (Hgood & n & _ & _ & Hacc).
    destruct H2 as [Hbad|Hno]; [congruence|now contradiction (Hno n)].
  - destruct H1 as (_ & n1 & -> & _ & Hacc1).
    destruct H2 as (_ & n2 & -> & _ & Hacc2).
    now rewrite (acceptable_unique _ _ _ _ Hacc1 Hacc2).
Qed.

End StreamLemmas.

Section EncoderProperties.

Context {PT : PosixTime} {CO : Collaborators}.

(** C9: whatever the arguments, [write_cnf] returns [false] and leaves
    the output stream untouched.  Either the summed spectrum is missing
    or empty and nothing is reported, or an exception is caught and
    reported on [cerr]; unless a collaborator raised one first, that
    exception is the unconditional "not yet implemented" one. *)
Theorem write_cnf_fails (this : SpecFile) (sample_nums det_nums : gset Z)
    (st : EncSt) :
  exists st',
    write_cnf this sample_nums det_nums st = (Val false, st')
    /\ output st' = output st
    /\ ((exists m, summed_spectrum this sample_nums det_nums = inr m
                   /\ missing_or_empty m /\ cerr st' = cerr st)
        \/ (exists what,
              cerr st'
              = cerr st ++ [String.append "Failed to write CNF file: " what]
              /\ ((forall e,
                      summed_spectrum this sample_nums det_nums <> inl e) ->
                  (forall coeffs n e,
                      fullrangefraction_coef_to_polynomial coeffs n
                      <> inl e) ->
                  what = "Writing CNF files not yet implemented."))).
Proof.
  unfold write_cnf, try_catch, write_cnf_try, summed_spectrum.
  cbv zeta. unfold bind at 1.
  destruct (sum_measurements this _ _) as [[what]|[m|]] eqn:Hsum;
    cbn [call throw ret write_cnf_catch].
  - eexists. split; [reflexivity|]. split; [reflexivity|].
    right. exists what. split; [reflexivity|].
    intros Hno _. exfalso. now apply (Hno (runtime_error what)).
  - destruct (gamma_counts_ m) as [[|x counts]|] eqn:Hgc.
    + eexists. split; [reflexivity|]. split; [reflexivity|].
      left. exists (Some m). repeat split. right. exact Hgc.
    + unfold polynomial_coeffs, bind.
      destruct (energy_calibration_model_ m); cbn [ret throw];
        try (eexists; split; [reflexivity|]; split; [reflexivity|];
             right; eexists; split; [reflexivity|]; intros; reflexivity).
      destruct (fullrangefraction_coef_to_polynomial _ _)
        as [[what]|coeffs] eqn:Hconv; cbn [call throw ret write_cnf_catch].
      * eexists. split; [reflexivity|]. split; [reflexivity|].
        right. exists what. split; [reflexivity|].
        intros _ Hno. exfalso. eapply Hno. exact Hconv.
      * eexists. split; [reflexivity|]. split; [reflexivity|].
        right. eexists. split; [reflexivity|]. intros; reflexivity.
    + eexists. split; [reflexivity|]. split; [reflexivity|].
      left. exists (Some m). repeat split. left. exact Hgc.
  - eexists. split; [reflexivity|]. split; [reflexivity|].
    left. exists None. repeat split.
Qed.

(** X18: the detector mask handed to [sum_measurements] has one entry
    per detector of the host, in order; with an empty [det_nums] every
    entry is [true], otherwise an entry is [true] exactly when its
    detector number is listed in [det_nums]. *)
Theorem detector_mask_selects (this : SpecFile) (det_nums : gset Z) :
  length (detector_mask this det_nums) = length (detector_numbers_ this)
  /\ forall (i : nat) (d : Z),
       detector_numbers_ this !! i = Some d ->
       detector_mask this det_nums !! i
       = Some (bool_decide (det_nums = ∅ \/ d ∈ det_nums)).
Proof.
  unfold detector_mask. destruct (decide (det_nums = ∅)) as [Hempty|Hne].
  - split; [apply length_replicate|].
    intros i d Hd. rewrite lookup_replicate_2 by (eapply lookup_lt_Some; eassumption).
    f_equal. symmetry. apply bool_decide_eq_true. now left.
  - split; [apply length_map|].
    intros i d Hd.
    change (map ?g ?l) with (g <$> l).
    rewrite list_lookup_fmap, Hd. cbn [fmap option_fmap option_map].
    f_equal. apply bool_decide_ext. tauto.
Qed.

End EncoderProperties.

(** ** Concrete files *)

Import Sample.

Example quarter_bits : F32.of_bits 0x3E800000 = F32.quarter.
Proof. reflexivity. Qed.

Example c_429_4967296_is_rounded :
  F64.div (F64.of_Z 4294967296) (F64.of_Z 10000000) = F64.c_429_4967296.
Proof. vm_compute. reflexivity. Qed.

Example start_time_sample :
  cnf_start_time 0 11500000 = Some 4939212390399000.
Proof. vm_compute. reflexivity. Qed.

(** The scenario of a blank 64-channel spectrum: the decode succeeds,
    the calibration model is [InvalidEquationType], every count is zero
    and so is their sum. *)
Example blank_spectrum_decodes :
  let res := decode blank_spectrum_file empty_SpecFile in
  fst res = Val true
  /\ (energy_calibration_model_ <$> head (measurements_ (self (snd res))))
     = Some InvalidEquationType
  /\ (gamma_counts_ <$> head (measurements_ (self (snd res))))
     = Some (Some (replicate 64 F32.zero))
  /\ (gamma_count_sum_ <$> head (measurements_ (self (snd res))))
     = Some F64.zero.
Proof. vm_compute. repeat split. Qed.

Lemma one_block_file_first_block :
  first_block one_block_file x05 0 1100 512.
Proof.
  exists 1. repeat split; try lia; try (vm_compute; reflexivity).
  intros i Hi. assert (i = 0) as -> by lia. vm_compute. reflexivity.
Qed.

Lemma one_block_file_no_second_block :
  no_block one_block_file x05 (512 + 512) 1100.
Proof. intros i Hi Hlt. lia. Qed.

(** C1, counterexample: in [one_block_file] the first [0x05] block is at
    512 and no other follows, yet the channel array is read from 1024,
    not from 512. *)
Lemma channel_array_not_at_first_match :
  first_block one_block_file x05 0 1100 512
  /\ no_block one_block_file x05 (512 + 512) 1100
  /\ fst (decode one_block_file empty_SpecFile) = Val true
  /\ last (reads (input (snd (decode one_block_file empty_SpecFile))))
     = Some (1024, 8)
  /\ last (reads (input (snd (decode one_block_file empty_SpecFile))))
     <> Some (512, 8).
Proof.
  split; [exact one_block_file_first_block|].
  split; [exact one_block_file_no_second_block|].
  vm_compute. repeat split; discriminate.
Qed.

(** [channel_array_start] on [one_block_file]: the array is read from
    1024. *)
Lemma channel_array_start_witness :
  exists r st',
    read_channel_data 1100 2 new_Measurement
      (mkDecSt (open_stream one_block_file) empty_SpecFile) = (r, st')
    /\ last (reads (input st')) = Some (1024, 8).
Proof.
  destruct (channel_array_start 1100 2 new_Measurement
              (mkDecSt (open_stream one_block_file) empty_SpecFile) 512)
    as (r & st' & Heq & Hno & _).
  - reflexivity.
  - vm_compute. discriminate.
  - vm_compute. reflexivity.
  - exact one_block_file_first_block.
  - vm_compute. discriminate.
  - exists r, st'. split; [exact Heq|].
    apply Hno. exact one_block_file_no_second_block.
Defined.

(** C2, at the failing input: [two_block_file] is 1537 bytes long and has
    [0x05] blocks at 512 and 1024.  The size check passes (1024 + 8 does
    not exceed 1537), the bulk read asks for the 8 bytes from 1536 on, the
    stream runs out after one byte and ends with [failbit] set, and the
    decode reports success. *)
Theorem bulk_read_past_end_of_stream :
  let res := decode two_block_file empty_SpecFile in
  fst res = Val true
  /\ last (reads (input (snd res))) = Some (1536, 8)
  /\ stream_length (input (snd res)) = 1537
  /\ failbit (input (snd res)) = true
  /\ is_marker two_block_file x05 512 = true
  /\ is_marker two_block_file x05 1024 = true.
Proof. vm_compute. repeat split. Qed.

(** C10, at the failing input: with channel count 0 (and likewise 1) the
    decode passes every check and reaches the store to
    [channeldata[1]], which lies outside the vector. *)
Theorem small_channel_count_stores_out_of_bounds :
  u32_at zero_channel_file 185 = 0
  /\ fst (decode zero_channel_file empty_SpecFile) = Stuck (OutOfBounds 0 1)
  /\ u32_at one_channel_file 185 = 1
  /\ fst (decode one_channel_file empty_SpecFile) = Stuck (OutOfBounds 1 1).
Proof. vm_compute. repeat split. Qed.

(** C3, counterexample: a failed decode of [truncated_file] into a host
    object that held a measurement leaves the host empty, not as it
    was. *)
Lemma failed_decode_clears_host :
  let st := mkDecSt (open_stream truncated_file) loaded_host in
  fst (load_from_cnf st) = Val false
  /\ measurements_ (self st) = [new_Measurement]
  /\ measurements_ (self (snd (load_from_cnf st))) = []
  /\ self (snd (load_from_cnf st)) <> self st.
Proof.
  intros st. split; [reflexivity|].
  split; [reflexivity|]. split; [reflexivity|].
  intros H. apply (f_equal filename_) in H.
  vm_compute in H. discriminate H.
Qed.

(** [load_from_cnf_failure] on [truncated_file], entered at position 4:
    the decode fails, the position is 4 again and the host is empty. *)
Lemma load_from_cnf_failure_witness :
  let st := mkDecSt (mkIstream truncated_file 4 false false []) loaded_host in
  fst (load_from_cnf st) = Val false
  /\ gpos (input (snd (load_from_cnf st))) = 4
  /\ measurements_ (self (snd (load_from_cnf st))) = [].
Proof.
  intros st.
  assert (Hwf : wf_stream (input st)).
  { split; vm_compute; [split; discriminate | reflexivity]. }
  assert (Hfail : fst (load_from_cnf st) = Val false).
  { vm_compute. reflexivity. }
  destruct (load_from_cnf_failure st Hwf) as [_ H].
  destruct (H Hfail) as (Hpos & _ & _ & Hheld).
  split; [exact Hfail|]. split; [exact Hpos|].
  apply Hheld. intros f. reflexivity.
Defined.

(** [num_channels_check] on [odd_count_file]: 96 channels are refused. *)
Lemma num_channels_check_witness :
  exists st',
    read_num_channels (header_offsets 0 0 0)
      (mkDecSt (open_stream odd_count_file) empty_SpecFile)
    = (Exn (runtime_error "Invalid number of channels"), st').
Proof.
  destruct (num_channels_check (header_offsets 0 0 0)
              (mkDecSt (open_stream odd_count_file) empty_SpecFile))
    as (st' & Hrej & _).
  - reflexivity.
  - vm_compute. reflexivity.
  - vm_compute. discriminate.
  - vm_compute. discriminate.
  - exists st'. apply Hrej.
    change (Int.le_to_Z
              (bytes_at
                 (content (input (mkDecSt (open_stream odd_count_file)
                                          empty_SpecFile)))
                 (num_channel_offset (header_offsets 0 0 0)) 4))
      with 96.
    split; [lia|]. intros (k & Hk & Heq).
    assert (k < 7) by (apply (Z.pow_lt_mono_r_iff 2); lia).
    assert (6 < k) by (apply (Z.pow_lt_mono_r_iff 2); lia).
    lia.
Defined.




(** [findCnfBlock_scan] on [one_block_file]: two candidates are read and
    the block is found at 512. *)
Lemma findCnfBlock_scan_witness :
  exists st',
    findCnfBlock x05 0 1100
      (mkDecSt (open_stream one_block_file) empty_SpecFile)
    = (Val (true, 512), st')
    /\ reads (input st') = [(0, 2); (512, 2)].
Proof.
  destruct (findCnfBlock_scan x05 0 1100
              (mkDecSt (open_stream one_block_file) empty_SpecFile))
    as (found & k & st' & Heq & Hreads & Hout & _).
  - reflexivity.
  - vm_compute. reflexivity.
  - vm_compute. discriminate.
  - lia.
  - lia.
  - destruct (first_block_scan _ _ _ _ _ _ _
                one_block_file_first_block Hout) as [-> Hk].
    assert (k = 1) as -> by lia.
    exists st'. split; [exact Heq|]. rewrite Hreads. reflexivity.
Defined.

(** [full_file] decodes to a record with title "Co-60", the remark
    "Sample ID: S1", detector name "Det1", gain 1.0 and counts
    0, 0, 7, 9, in a host with the Falcon 5000 guess. *)
Example full_file_decodes :
  let res := decode full_file empty_SpecFile in
  fst res = Val true
  /\ (title_ <$> head (measurements_ (self (snd res)))) = Some "Co-60"%string
  /\ (meas_remarks_ <$> head (measurements_ (self (snd res))))
     = Some ["Sample ID: S1"%string]
  /\ (detector_name_ <$> head (measurements_ (self (snd res))))
     = Some "Det1"%string
  /\ (calibration_coeffs_ <$> head (measurements_ (self (snd res))))
     = Some [F32.zero; S754_finite false 8388608 (-23); F32.zero]
  /\ (gamma_counts_ <$> head (measurements_ (self (snd res))))
     = Some (Some [F32.zero; F32.zero; F32.of_Z 7; F32.of_Z 9])
  /\ remarks_ (self (snd res)) = ["MCA Type: I2K"%string]
  /\ detector_type_ (self (snd res)) = Falcon5000.
Proof. vm_compute. repeat split. Qed.




(** [accepted_stream_size] on [full_file]. *)
Lemma accepted_stream_size_witness :
  1024 < 1552
  /\ exists H, first_block full_file x00 0 1552 H
               /\ H + u16_at full_file (H + 34) + 1000 <= 1552.
Proof.
  apply (accepted_stream_size
           (mkDecSt (open_stream full_file) empty_SpecFile)).
  - split; vm_compute; [split; discriminate | reflexivity].
  - vm_compute. reflexivity.
Defined.

(** [short_stream_refused_unread] on the first 512 bytes of
    [one_block_file]: refused, and nothing was read. *)
Lemma short_stream_refused_unread_witness :
  let res := decode (take 512 one_block_file) empty_SpecFile in
  fst res = Val false /\ reads (input (snd res)) = [].
Proof.
  destruct (short_stream_refused_unread
              (mkDecSt (open_stream (take 512 one_block_file))
                       empty_SpecFile))
    as (Hfalse & Hreads & _).
  - split; vm_compute; [split; discriminate | reflexivity].
  - reflexivity.
  - vm_compute. discriminate.
  - split; [exact Hfalse|exact Hreads].
Defined.


(** [decoded_calibration] on [full_file]. *)
Lemma decoded_calibration_witness :
  let st := mkDecSt (open_stream full_file) empty_SpecFile in
  let c := full_file in
  exists H meas f',
    first_block c x00 0 1552 H
    /\ self (snd (load_from_cnf st)) = cleanup_after_load f'
    /\ last (measurements_ f') = Some meas
    /\ let q := H + u16_at c (H + 34) + 116 in
       let coeffs :=
         [cnf_float_at c q; cnf_float_at c (q + 4); cnf_float_at c (q + 8)] in
       let n := u32_at c (H + 185) in
       (calibration_is_valid Polynomial coeffs [] n = true
        /\ calibration_coeffs_ meas = coeffs
        /\ energy_calibration_model_ meas = Polynomial)
       \/ (calibration_is_valid Polynomial coeffs [] n = false
           /\ forallb F32.is_zero coeffs = true
           /\ calibration_coeffs_ meas = []
           /\ energy_calibration_model_ meas = InvalidEquationType).
Proof.
  intros st c.
  apply (decoded_calibration st).
  - split; vm_compute; [split; discriminate | reflexivity].
  - vm_compute. reflexivity.
Defined.

(** [decoded_texts] on [full_file]. *)
Lemma decoded_texts_witness :
  let st := mkDecSt (open_stream full_file) empty_SpecFile in
  let c := full_file in
  exists H meas f',
    first_block c x00 0 1552 H
    /\ self (snd (load_from_cnf st)) = cleanup_after_load f'
    /\ last (measurements_ f') = Some meas
    /\ detector_name_ meas = text_at c (H + u16_at c (H + 34) + 49) 31
    /\ ((exists T,
           first_block c x01 0 1552 T
           /\ title_ meas = text_at c (T + 48) 64
           /\ meas_remarks_ meas
              = if nonempty (text_at c (T + 112) 16)
                then [String.append "Sample ID: " (text_at c (T + 112) 16)]
                else [])
        \/ (no_block c x01 0 1552
            /\ title_ meas = EmptyString /\ meas_remarks_ meas = [])).
Proof.
  intros st c.
  apply (decoded_texts st).
  - split; vm_compute; [split; discriminate | reflexivity].
  - vm_compute. reflexivity.
Defined.




(** [decoded_host] on [full_file]. *)
Lemma decoded_host_witness :
  let st := mkDecSt (open_stream full_file) empty_SpecFile in
  let c := full_file in
  let f0 := reset empty_SpecFile in
  exists H meas f',
    let mca_type := text_at c (H + u16_at c (H + 34) + 204) 8 in
    let generic_detector := text_at c (H + u16_at c (H + 34) + 780) 8 in
    first_block c x00 0 1552 H
    /\ self (snd (load_from_cnf st)) = cleanup_after_load f'
    /\ measurements_ f' = measurements_ f0 ++ [meas]
    /\ remarks_ f'
       = remarks_ f0
         ++ (if nonempty mca_type
             then [String.append "MCA Type: " mca_type] else [])
    /\ filename_ f' = filename_ f0
    /\ if String.eqb mca_type "I2K" && String.eqb generic_detector "Ge"
       then detector_type_ f' = Falcon5000
            /\ instrument_type_ f' = "Spectrometer"%string
            /\ manufacturer_ f' = "Canberra"%string
            /\ instrument_model_ f' = "Falcon 5000"%string
       else detector_type_ f' = detector_type_ f0
            /\ instrument_type_ f' = instrument_type_ f0
            /\ manufacturer_ f' = manufacturer_ f0
            /\ instrument_model_ f' = instrument_model_ f0.
Proof.
  intros st c f0.
  apply (decoded_host st).
  - split; vm_compute; [split; discriminate | reflexivity].
  - vm_compute. reflexivity.
Defined.

(** [cnf_float_exact] on the bytes [80 40 00 00]: swapped they are
    4.0f, and exactly 1.0f is returned. *)
Lemma cnf_float_exact_witness :
  cnf_float_of_Buf x80 x40 x00 x00 = S754_finite false 8388608 (-21 - 2).
Proof.
  apply cnf_float_exact.
  - vm_compute. reflexivity.
  - reflexivity.
  - lia.
Defined.


(** [read_header_safe] on [full_file]. *)
Lemma read_header_safe_witness :
  let st := mkDecSt (open_stream full_file) empty_SpecFile in
  exists r st',
    read_header 0 st = (r, st')
    /\ content (input st') = full_file
    /\ failbit (input st') = false
    /\ match r with
       | Val (size, n, meas) =>
           size = 1552 /\ 0 <= n < 2 ^ 32 /\ invalid_num_channels n = false
       | Exn _ => True
       | Stuck _ => False
       end.
Proof.
  intros st.
  apply (read_header_safe st).
  - split; vm_compute; [split; discriminate | reflexivity].
  - reflexivity.
Defined.

(** [single_block_read_in_bounds] on [one_block_file], which has one
    channel-data block. *)
Lemma single_block_read_in_bounds_witness :
  let res := read_channel_data 1100 2 new_Measurement
               (mkDecSt (open_stream one_block_file) empty_SpecFile) in
  (exists what, fst res = Exn (runtime_error what))
  \/ (exists start cnt,
        last (reads (input (snd res))) = Some (start, cnt)
        /\ start + cnt <= 1100
        /\ failbit (input (snd res)) = false).
Proof.
  intros res.
  apply (single_block_read_in_bounds 1100 2 new_Measurement one_block_file
           0 false [] empty_SpecFile 512).
  - vm_compute. discriminate.
  - vm_compute. reflexivity.
  - exact one_block_file_first_block.
  - exact one_block_file_no_second_block.
  - apply surjective_pairing.
Defined.

Lemma two_block_file_first_block :
  first_block two_block_file x05 0 1537 512.
Proof.
  exists 1. repeat split; try lia; try (vm_compute; reflexivity).
  intros i Hi. assert (i = 0) as -> by lia. vm_compute. reflexivity.
Qed.

Lemma two_block_file_second_block :
  first_block two_block_file x05 (512 + 512) 1537 1024.
Proof.
  exists 0. repeat split; try lia; try (vm_compute; reflexivity).
Qed.

(** [second_block_read_unchecked] on [two_block_file], which has
    channel-data blocks at 512 and 1024 and ends at 1537. *)
Lemma second_block_read_unchecked_witness :
  exists r st',
    read_channel_data 1537 2 new_Measurement
      (mkDecSt (open_stream two_block_file) empty_SpecFile) = (r, st')
    /\ (forall what, r <> Exn (runtime_error what))
    /\ last (reads (input st')) = Some (1024 + 512, Int.u32 (4 * 2))
    /\ failbit (input st') = true.
Proof.
  apply (second_block_read_unchecked 1537 2 new_Measurement two_block_file
           0 false [] empty_SpecFile 512 1024).
  - vm_compute. discriminate.
  - vm_compute. reflexivity.
  - exact two_block_file_first_block.
  - exact two_block_file_second_block.
  - vm_compute. discriminate.
  - vm_compute. reflexivity.
Defined.

(** [decoded_stream_left] on [two_block_file]: the stream is left at its
    end, 1537, with both state bits set. *)
Lemma decoded_stream_left_witness :
  let st := mkDecSt (open_stream two_block_file) empty_SpecFile in
  let c := two_block_file in
  let i' := input (snd (load_from_cnf st)) in
  exists H start,
    let cnt := Int.u32 (4 * u32_at c (H + 185)) in
    let got := Z.of_nat (length (bytes_at c start cnt)) in
    first_block c x00 0 1537 H
    /\ channel_array_at c 1537 cnt start
    /\ content i' = c
    /\ gpos i' = start + got
    /\ last (reads i') = Some (start, cnt)
    /\ failbit i' = (got <? cnt)
    /\ eofbit i' = (got <? cnt).
Proof.
  intros st c i'.
  apply (decoded_stream_left st).
  - split; vm_compute; [split; discriminate | reflexivity].
  - vm_compute. reflexivity.
Defined.

(** [decode_outcome_ignores_host] on [full_file], decoded into an empty
    host and into one that held a measurement. *)
Lemma decode_outcome_ignores_host_witness :
  fst (load_from_cnf (mkDecSt (open_stream full_file) empty_SpecFile))
  = fst (load_from_cnf (mkDecSt (open_stream full_file) loaded_host)).
Proof.
  apply (decode_outcome_ignores_host (open_stream full_file)
           empty_SpecFile loaded_host).
  split; vm_compute; [split; discriminate | reflexivity].
Defined.
